(** * Virtual-table providers of the sqlite bridge: a shallow embedding

    The providers of the repository (the CSV table of the loader example,
    the echo / match / regexp demonstration tables and the tables of
    [module_test.go]) are translated function by function.  Go's [int] and
    [int64] are [Z] (with the 64-bit wrap-around written out where the code
    can reach it), slices are lists, strings are [string], an [error] is a
    message, and a run-time panic is a result of its own. *)

From Stdlib Require Import ZArith Lia List Bool Ascii String Sorted.
From Stdlib Require Import DecimalString DecimalZ DecimalPos.
From stdpp Require Import base option list strings gmap.

Local Open Scope string_scope.
Local Open Scope Z_scope.

(** ** Results of Go calls *)

(** A call returns normally ([Ok]), returns a non-nil [error] ([Err], with
    the text of the error), or panics ([Panic], an index out of range). *)
Inductive res (A : Type) : Type :=
| Ok (a : A)
| Err (msg : string)
| Panic.
Arguments Ok {A} a.
Arguments Err {A} msg.
Arguments Panic {A}.

#[global] Instance res_ret : MRet res := fun A a => Ok a.
#[global] Instance res_bind : MBind res := fun A B k r =>
  match r with
  | Ok a => k a
  | Err m => Err m
  | Panic => Panic
  end.
#[global] Instance res_fmap : FMap res := fun A B f r =>
  match r with
  | Ok a => Ok (f a)
  | Err m => Err m
  | Panic => Panic
  end.

Definition is_Ok {A} (r : res A) : bool :=
  match r with Ok _ => true | _ => false end.

Definition is_Err {A} (r : res A) : bool :=
  match r with Err _ => true | _ => false end.

(** ** Machine integers *)

Definition MaxInt32 : Z := 2 ^ 31 - 1.
Definition MinInt32 : Z := - 2 ^ 31.
Definition MaxInt64 : Z := 2 ^ 63 - 1.
Definition MinInt64 : Z := - 2 ^ 63.

(** Two's-complement reduction of an integer to 64 bits: the value Go's
    [int64] (and [int], on the 64-bit targets) arithmetic produces. *)
Definition wrap64 (z : Z) : Z := (z + 2 ^ 63) mod 2 ^ 64 - 2 ^ 63.

Definition in_int64 (z : Z) : bool := (MinInt64 <=? z) && (z <=? MaxInt64).
Definition in_int32 (z : Z) : bool := (MinInt32 <=? z) && (z <=? MaxInt32).

Definition len {A} (l : list A) : Z := Z.of_nat (length l).

(** [l[i]] with Go's bounds check. *)
Definition index {A} (l : list A) (i : Z) : res A :=
  if (i <? 0) || (len l <=? i) then Panic
  else match l !! Z.to_nat i with
       | Some a => Ok a
       | None => Panic
       end.

(** A sequence of calls applied to a state, one step function for all. *)
Definition run_calls {S A : Type} (step : A -> S -> S) (l : list A) (s : S) : S :=
  fold_left (fun s a => step a s) l s.

(** ** Decimal text *)

(** [strconv.Itoa], and the [%d] verb of [fmt]. *)
Definition Itoa (z : Z) : string := NilZero.string_of_int (Z.to_int z).

Definition is_digit (a : ascii) : bool :=
  let n := nat_of_ascii a in (48 <=? n)%nat && (n <=? 57)%nat.

Definition all_digits (s : string) : bool :=
  forallb is_digit (list_ascii_of_string s).

(** The digits of [strconv.Atoi]'s operand after its sign: at least one,
    nothing but digits, the value within [int]. *)
Definition parse_digits (neg : bool) (ds : string) : option Z :=
  if negb (String.eqb ds "") && all_digits ds then
    match NilEmpty.uint_of_string ds with
    | Some u =>
        let v := if neg then - Z.of_uint u else Z.of_uint u in
        if in_int64 v then Some v else None
    | None => None
    end
  else None.

(** [strconv.Atoi] (base 10, one optional sign); [None] is its error. *)
Definition Atoi (s : string) : option Z :=
  match s with
  | String a ds =>
      if Ascii.eqb a "+"%char then parse_digits false ds
      else if Ascii.eqb a "-"%char then parse_digits true ds
      else parse_digits false s
  | EmptyString => None
  end.

(** [strings.Contains]. *)
Fixpoint Contains (s sub : string) : bool :=
  String.prefix sub s ||
  match s with
  | EmptyString => false
  | String _ s' => Contains s' sub
  end.

(** ** Values crossing the bridge *)

Section Values.

(** The REAL payload and its rendering by [fmt.Sprint] belong to Go's
    floating-point formatting, which is taken as given. *)
Context {float64 : Type} (FormatFloat : float64 -> string).

(** [vtab.Value]: nil, int64, float64, string or []byte. *)
Inductive Value : Type :=
| VNull
| VInt (i : Z)
| VReal (f : float64)
| VText (s : string)
| VBlob (b : list Z).

Fixpoint join (sep : string) (l : list string) : string :=
  match l with
  | [] => ""
  | [s] => s
  | s :: rest => s +:+ sep +:+ join sep rest
  end.

(** [fmt.Sprint(v)] on one operand. *)
Definition Sprint (v : Value) : string :=
  match v with
  | VNull => "<nil>"
  | VInt i => Itoa i
  | VReal f => FormatFloat f
  | VText s => s
  | VBlob b => "[" +:+ join " " (map Itoa b) +:+ "]"
  end.

(** [s, _ := v.(string)]: the string, or the zero value. *)
Definition as_string (v : Value) : string :=
  match v with
  | VText s => s
  | _ => ""
  end.

End Values.

Arguments Value : clear implicits.
Arguments VNull {float64}.
Arguments VInt {float64} i.
Arguments VReal {float64} f.
Arguments VText {float64} s.
Arguments VBlob {float64} b.

(** ** Go's standard library *)

(** The library routines the providers call and that are not part of the
    repository: floating-point formatting, [encoding/csv], [strings.ToLower],
    [unicode/utf8] decoding and [regexp].  The providers are embedded over
    any implementation of them. *)
Class GoLib := {
  float64 : Type;
  (** [fmt.Sprint] of a float64 *)
  FormatFloat : float64 -> string;
  (** [csv.Writer.Write] with the given [Comma]: the bytes of one record *)
  csv_Write : Z -> list string -> res string;
  (** [csv.Reader.Read] with the given [Comma] and [FieldsPerRecord = -1]:
      the next record and the input left; at the end of input the error *)
  csv_Read : Z -> string -> res (list string * string);
  (** [csv.Reader.ReadAll], same settings: all remaining records *)
  csv_ReadAll : Z -> string -> res (list (list string));
  (** [strings.ToLower] *)
  ToLower : string -> string;
  (** [utf8.DecodeRuneInString], the rune only *)
  DecodeRuneInString : string -> Z;
  (** [regexp.Compile]: the matcher [MatchString] of the compiled
      expression, or [None] for its error *)
  regexp_Compile : string -> option (string -> bool);
}.

Abbreviation value := (Value float64).

Definition RuneError : Z := 65533.

(** [string(r)] for a rune: its UTF-8 encoding, that of U+FFFD when [r] is
    not a Unicode scalar value. *)
Definition byte_str (z : Z) : string :=
  String (ascii_of_nat (Z.to_nat z)) EmptyString.

Definition utf8 (r : Z) : string :=
  if (0 <=? r) && (r <? 128) then byte_str r
  else if (0 <=? r) && (r <? 2048) then
    byte_str (192 + r / 64) +:+ byte_str (128 + r mod 64)
  else if ((0 <=? r) && (r <? 55296)) || ((57344 <=? r) && (r <? 65536)) then
    byte_str (224 + r / 4096) +:+ byte_str (128 + (r / 64) mod 64)
      +:+ byte_str (128 + r mod 64)
  else if (65536 <=? r) && (r <=? 1114111) then
    byte_str (240 + r / 262144) +:+ byte_str (128 + (r / 4096) mod 64)
      +:+ byte_str (128 + (r / 64) mod 64) +:+ byte_str (128 + r mod 64)
  else byte_str 239 +:+ byte_str 191 +:+ byte_str 189.

Fixpoint drop_str (n : nat) (s : string) : string :=
  match n, s with
  | O, _ => s
  | S n', String _ s' => drop_str n' s'
  | S _, EmptyString => EmptyString
  end.

(** [bytes.ReplaceAll(s, old, new)] for a non-empty [old]: the matches are
    taken left to right and do not overlap.  [skip] counts the bytes of a
    match still to be passed over. *)
Fixpoint replace_from (old new : string) (skip : nat) (s : string) : string :=
  match s with
  | EmptyString => EmptyString
  | String c s' =>
      match skip with
      | S k => replace_from old new k s'
      | O =>
          if String.prefix old s
          then new +:+ replace_from old new (String.length old - 1) s'
          else String c (replace_from old new O s')
      end
  end.

Definition ReplaceAll (s old new : string) : string := replace_from old new O s.

(** ** The planning structures *)

(** Modelled from the spec: the declarations of package [vtab]
    ([ConstraintOp], [Constraint], [IndexInfo]), which the providers use and
    which are not among the sources; spec section 3.  The cost hints
    ([EstimatedCost], [EstimatedRows]) are left out: no provider writes
    them. *)
Inductive ConstraintOp : Type :=
| OpEQ | OpGT | OpLE | OpLT | OpGE | OpMATCH | OpLIKE | OpGLOB | OpREGEXP
| OpISNULL | OpISNOTNULL | OpIS | OpNE
| OpFunction (code : Z).

#[global] Instance ConstraintOp_eq_dec : EqDecision ConstraintOp.
Proof. solve_decision. Defined.

Record Constraint : Type := mkConstraint {
  Column : Z;
  Op : ConstraintOp;
  Usable : bool;
  ArgIndex : Z;
  Omit : bool;
}.

Record IndexInfo : Type := mkIndexInfo {
  Constraints : list Constraint;
  OrderBy : list (Z * bool);
  ColUsed : Z;
  IdxNum : Z;
  IdxStr : string;
  OrderByConsumed : bool;
}.

Definition set_ArgIndex (k : Z) (c : Constraint) : Constraint :=
  mkConstraint (Column c) (Op c) (Usable c) k (Omit c).
Definition set_Omit (b : bool) (c : Constraint) : Constraint :=
  mkConstraint (Column c) (Op c) (Usable c) (ArgIndex c) b.
Definition set_Constraints (cs : list Constraint) (i : IndexInfo) : IndexInfo :=
  mkIndexInfo cs (OrderBy i) (ColUsed i) (IdxNum i) (IdxStr i) (OrderByConsumed i).
Definition set_IdxNum (n : Z) (i : IndexInfo) : IndexInfo :=
  mkIndexInfo (Constraints i) (OrderBy i) (ColUsed i) n (IdxStr i) (OrderByConsumed i).
Definition set_IdxStr (s : string) (i : IndexInfo) : IndexInfo :=
  mkIndexInfo (Constraints i) (OrderBy i) (ColUsed i) (IdxNum i) s (OrderByConsumed i).

Definition op_is (a b : ConstraintOp) : bool := bool_decide (a = b).

(** The calls an engine makes on an open cursor between [Open] and the end
    of its life, as far as they move the cursor. *)
Inductive call `{GoLib} : Type :=
| CallFilter (idxNum : Z) (idxStr : string) (vals : list value)
| CallNext
| CallClose.

(** ** The CSV provider (the loader example) *)

Module csv.
Section Provider.
Context `{GoLib}.

Record csvTable : Type := mkTable {
  file : string;
  cols : list string;
  rows : list (list string);
  nextID : Z;
  header : bool;
  delimiter : Z;
  quote : Z;
}.

(** The cursor's pointer [t] to its table is the table argument of the
    cursor's methods: they read the table as it is at the call. *)
Record csvCursor : Type := mkCursor {
  crows : list (list string);
  pos : Z;
}.

(** The files of the directory: path to contents.  Reading a path that is
    not there fails; writing and renaming succeed. *)
Definition FS : Type := gmap string string.

(** [vtab.Context]: the schema declaration of the bridge. *)
Record Context : Type := { ctx_Declare : string -> res unit }.

Definition set_rows (rs : list (list string)) (t : csvTable) : csvTable :=
  mkTable (file t) (cols t) rs (nextID t) (header t) (delimiter t) (quote t).
Definition set_nextID (n : Z) (t : csvTable) : csvTable :=
  mkTable (file t) (cols t) (rows t) n (header t) (delimiter t) (quote t).

(** *** parseCSVArgs *)

(** [strings.SplitN(a, "=", 2)]: the key, and the rest when there is
    an ["="]. *)
Fixpoint SplitN_eq (a : string) : string * option string :=
  match a with
  | EmptyString => (EmptyString, None)
  | String c a' =>
      if Ascii.eqb c "="%char then (EmptyString, Some a')
      else let '(k, v) := SplitN_eq a' in (String c k, v)
  end.

Definition dquote : ascii := ascii_of_nat 34.

Definition unquote (s : string) : string :=
  let n := String.length s in
  if (2 <=? n)%nat then
    match String.get 0 s, String.get (n - 1) s with
    | Some a, Some b =>
        if (Ascii.eqb a dquote && Ascii.eqb b dquote)
           || (Ascii.eqb a "'"%char && Ascii.eqb b "'"%char)
        then String.substring 1 (n - 2) s
        else s
    | _, _ => s
    end
  else s.

Definition tab : string := String (ascii_of_nat 9) EmptyString.

Record csvArgs : Type := mkArgs {
  a_file : string; a_delim : Z; a_header : bool; a_quote : Z;
}.

Definition parse_arg (acc : csvArgs) (a : string) : csvArgs :=
  let '(k, kv1) := SplitN_eq a in
  let v := match kv1 with Some x => unquote x | None => "" end in
  if String.eqb k "filename" then
    mkArgs v (a_delim acc) (a_header acc) (a_quote acc)
  else if String.eqb k "delimiter" then
    if String.eqb v "\t" || String.eqb v tab then
      mkArgs (a_file acc) 9 (a_header acc) (a_quote acc)
    else if negb (String.eqb v "") then
      let r := DecodeRuneInString v in
      if negb (r =? RuneError) then
        mkArgs (a_file acc) r (a_header acc) (a_quote acc)
      else acc
    else acc
  else if String.eqb k "header" then
    let lv := ToLower v in
    if String.eqb lv "false" || String.eqb lv "0" || String.eqb lv "no" then
      mkArgs (a_file acc) (a_delim acc) false (a_quote acc)
    else if String.eqb lv "true" || String.eqb lv "1" || String.eqb lv "yes" then
      mkArgs (a_file acc) (a_delim acc) true (a_quote acc)
    else acc
  else if String.eqb k "quote" then
    if negb (String.eqb v "") then
      let r := DecodeRuneInString v in
      if negb (r =? RuneError) then
        mkArgs (a_file acc) (a_delim acc) (a_header acc) r
      else acc
    else acc
  else acc.

Definition parseCSVArgs (args : list string) : csvArgs :=
  fold_left parse_arg args (mkArgs "" 44 true 34).

(** *** valuesToStrings *)

Fixpoint valuesToStrings_nat (vals : list value) (n : nat) : list string :=
  match n with
  | O => []
  | S n' =>
      match vals with
      | [] => "" :: valuesToStrings_nat [] n'
      | v :: vs =>
          match v with
          | VNull => ""
          | _ => Sprint FormatFloat v
          end :: valuesToStrings_nat vs n'
      end
  end.

Definition valuesToStrings (vals : list value) (n : Z) : list string :=
  valuesToStrings_nat vals (Z.to_nat n).

(** *** loadCSV *)

(** A record cut or padded with empty strings to [n] fields. *)
Definition fit (n : nat) (r : list string) : list string :=
  take n (r ++ replicate (n - length r) "").

Definition custom_quote (q : Z) : bool := negb (q =? 0) && negb (q =? 34).

Definition comma_of (delim : Z) : Z := if delim =? 0 then 44 else delim.

Definition ReadFile (fs : FS) (file : string) : res string :=
  match fs !! file with
  | Some d => Ok d
  | None => Err ("open " +:+ file +:+ ": no such file or directory")
  end.

(** The column names of a file without header: c1, ..., cn. *)
Definition default_cols (n : nat) : list string :=
  map (fun i => "c" +:+ Itoa (Z.of_nat i + 1)) (seq 0 n).

Definition loadCSV (fs : FS) (file : string) (delim : Z) (header : bool)
    (quote : Z) : res csvTable :=
  data ← ReadFile fs file;
  let data := if custom_quote quote
              then ReplaceAll data (utf8 quote) (byte_str 34) else data in
  let mk hdr rs :=
    mkTable file hdr rs (wrap64 (len rs + 1)) header delim quote in
  if header then
    match csv_Read (comma_of delim) data with
    | Ok (hdr, rest) =>
        rs ← csv_ReadAll (comma_of delim) rest;
        Ok (mk hdr (map (fit (length hdr)) rs))
    | Err e => Err ("csv: read header: " +:+ e)
    | Panic => Panic
    end
  else
    all ← csv_ReadAll (comma_of delim) data;
    match all with
    | [] => Err "csv: empty file with header=false"
    | r0 :: _ =>
        let n := length r0 in
        Ok (mk (default_cols n) (map (fit n) all))
    end.

(** *** Create and Connect *)

Definition Create (ctx : Context) (fs : FS) (args : list string)
    : res csvTable :=
  if len args <? 3 then Panic
  else
    let a := parseCSVArgs (drop 3 args) in
    if String.eqb (a_file a) "" then Err "csv: require filename=... arg"
    else
      t ← loadCSV fs (a_file a) (a_delim a) (a_header a) (a_quote a);
      name ← index args 2;
      _ ← ctx_Declare ctx ("CREATE TABLE " +:+ name +:+ "(" +:+ join "," (cols t) +:+ ")");
      Ok t.


(** *** BestIndex *)

Definition exploitable (t : csvTable) (c : Constraint) : bool :=
  negb (negb (Usable c) || negb (op_is (Op c) OpEQ)
        || (Column c <? 0) || (len (cols t) <=? Column c)).

(** The loop over [info.Constraints]: the constraints after the loop and
    the column of the constraint it stopped at, if it stopped. *)
Fixpoint best_loop (t : csvTable) (cs : list Constraint)
    : list Constraint * option Z :=
  match cs with
  | [] => ([], None)
  | c :: rest =>
      if exploitable t c
      then (set_Omit true (set_ArgIndex 0 c) :: rest, Some (Column c))
      else let '(rest', found) := best_loop t rest in (c :: rest', found)
  end.

Definition BestIndex (t : csvTable) (info : IndexInfo) : res IndexInfo :=
  match best_loop t (Constraints info) with
  | (cs, Some col) =>
      Ok (set_IdxStr (Itoa col) (set_IdxNum 1 (set_Constraints cs info)))
  | (_, None) => Ok (set_IdxNum 0 info)
  end.

Definition Open (t : csvTable) : res csvCursor := Ok (mkCursor (rows t) 0).
Definition Disconnect (t : csvTable) : res unit := Ok ().
Definition Destroy (t : csvTable) : res unit := Ok ().

(** *** flush *)

Fixpoint WriteAll (comma : Z) (records : list (list string)) : res string :=
  match records with
  | [] => Ok ""
  | r :: rest =>
      b ← csv_Write comma r;
      bs ← WriteAll comma rest;
      Ok (b +:+ bs)
  end.

(** The bytes [flush] hands to [os.WriteFile]. *)
Definition flush_bytes (t : csvTable) : res string :=
  hd ← (if header t then csv_Write (comma_of (delimiter t)) (cols t)
        else Ok "");
  body ← WriteAll (comma_of (delimiter t)) (rows t);
  let out := hd +:+ body in
  Ok (if custom_quote (quote t)
      then ReplaceAll out (byte_str 34) (utf8 (quote t)) else out).

(** [flush]: the file system afterwards and the error returned.  The
    temporary file is written and renamed over the table's file. *)
Definition flush (t : csvTable) (fs : FS) : FS * res unit :=
  match flush_bytes t with
  | Ok out =>
      let tmp := file t +:+ ".tmp" in
      (<[file t := out]> (delete tmp (<[tmp := out]> fs)), Ok ())
  | Err e => (fs, Err e)
  | Panic => (fs, Panic)
  end.

(** *** The Updater methods *)

(** [Insert(cols, rowid)]: the table, the file system, [*rowid] after the
    call, and the error returned. *)
Definition Insert (t : csvTable) (fs : FS) (vals : list value) (rowid : Z)
    : csvTable * FS * Z * res unit :=
  let rec := valuesToStrings vals (len (cols t)) in
  let rowid' := if rowid =? 0 then nextID t else rowid in
  let t' := set_nextID (wrap64 (nextID t + 1)) (set_rows (rows t ++ [rec]) t) in
  let '(fs', e) := flush t' fs in
  (t', fs', rowid', e).

Definition in_range (t : csvTable) (idx : Z) : bool :=
  negb ((idx <? 0) || (len (rows t) <=? idx)).

Definition swap_rows (rs : list (list string)) (i j : nat)
    : list (list string) :=
  match rs !! i, rs !! j with
  | Some ri, Some rj => <[i := rj]> (<[j := ri]> rs)
  | _, _ => rs
  end.

Definition Update (t : csvTable) (fs : FS) (oldRowid : Z)
    (vals : list value) (newRowid : option Z) : csvTable * FS * res unit :=
  let idx := wrap64 (oldRowid - 1) in
  if negb (in_range t idx) then
    (t, fs, Err ("csv: rowid " +:+ Itoa oldRowid +:+ " out of range"))
  else
    let rec := valuesToStrings vals (len (cols t)) in
    let rs := <[Z.to_nat idx := rec]> (rows t) in
    let rs' :=
      match newRowid with
      | Some new =>
          if negb (new =? 0) && negb (new =? oldRowid) then
            let nidx := wrap64 (new - 1) in
            if in_range t nidx
            then swap_rows rs (Z.to_nat idx) (Z.to_nat nidx)
            else rs
          else rs
      | None => rs
      end in
    let t' := set_rows rs' t in
    let '(fs', e) := flush t' fs in
    (t', fs', e).

Definition Delete (t : csvTable) (fs : FS) (oldRowid : Z)
    : csvTable * FS * res unit :=
  let idx := wrap64 (oldRowid - 1) in
  if negb (in_range t idx) then
    (t, fs, Err ("csv: rowid " +:+ Itoa oldRowid +:+ " out of range"))
  else
    let i := Z.to_nat idx in
    let t' := set_rows (take i (rows t) ++ drop (S i) (rows t)) t in
    let '(fs', e) := flush t' fs in
    (t', fs', e).

(** *** The cursor *)

Definition row_matches (col : Z) (target : string) (r : list string) : bool :=
  (col <? len r) &&
  match r !! Z.to_nat col with
  | Some s => String.eqb s target
  | None => false
  end.

Definition Filter (t : csvTable) (c : csvCursor) (idxNum : Z)
    (idxStr : string) (vals : list value) : csvCursor * res unit :=
  let c0 := mkCursor (rows t) 0 in
  if idxNum =? 1 then
    match Atoi idxStr with
    | None => (c0, Ok ())
    | Some col =>
        if (col <? 0) || (len (cols t) <=? col) then (c0, Ok ())
        else
          match vals with
          | [] => (c0, Ok ())
          | v0 :: _ =>
              let target := Sprint FormatFloat v0 in
              (mkCursor (List.filter (row_matches col target) (rows t)) 0,
               Ok ())
          end
    end
  else (c0, Ok ()).

Definition Next (c : csvCursor) : csvCursor * res unit :=
  if pos c <? len (crows c) then (mkCursor (crows c) (pos c + 1), Ok ())
  else (c, Ok ()).

Definition Eof (c : csvCursor) : bool := len (crows c) <=? pos c.

Definition Column (t : csvTable) (c : csvCursor) (col : Z) : res value :=
  if (len (crows c) <=? pos c) || (len (cols t) <=? col) then Ok VNull
  else
    r ← index (crows c) (pos c);
    s ← index r col;
    Ok (VText s).

Definition Rowid (c : csvCursor) : res Z := Ok (wrap64 (pos c + 1)).
Definition Close (c : csvCursor) : csvCursor * res unit := (c, Ok ()).

Definition step (a : csvTable * call) (c : csvCursor) : csvCursor :=
  match a with
  | (t, CallFilter n s vals) => fst (Filter t c n s vals)
  | (_, CallNext) => fst (Next c)
  | (_, CallClose) => fst (Close c)
  end.

(** A mutating statement of the engine on the table. *)
Inductive stmt : Type :=
| SInsert (vals : list value) (rowid : Z)
| SUpdate (oldRowid : Z) (vals : list value) (newRowid : option Z)
| SDelete (oldRowid : Z).

(** One statement on the table and the directory. *)
Definition exec (s : stmt) (st : csvTable * FS) : csvTable * FS :=
  match s with
  | SInsert vals rowid => (Insert st.1 st.2 vals rowid).1.1
  | SUpdate old vals new => (Update st.1 st.2 old vals new).1
  | SDelete old => (Delete st.1 st.2 old).1
  end.

(** The number of rows the deletes of a sequence of statements remove. *)
Fixpoint removed (ss : list stmt) (st : csvTable * FS) : Z :=
  match ss with
  | [] => 0
  | s :: rest =>
      match s with
      | SDelete old => if in_range st.1 (wrap64 (old - 1)) then 1 else 0
      | _ => 0
      end + removed rest (exec s st)
  end.


End Provider.
End csv.

(** ** The echo provider (examples/vtab_basic) *)

Module echo.
Section Provider.
Context `{GoLib}.

Record echoCursor : Type := mkCursor { rows : list string; pos : Z }.

(** The loop of [BestIndex]: the constraints after it and the plan tag of
    the constraint it returned at, if it did. *)
Fixpoint best_loop (cs : list Constraint) : list Constraint * option Z :=
  match cs with
  | [] => ([], None)
  | c :: rest =>
      if negb (Usable c) || negb (Column c =? 0)
      then let '(rest', r) := best_loop rest in (c :: rest', r)
      else match Op c with
           | OpEQ => (set_Omit true (set_ArgIndex 0 c) :: rest, Some 1)
           | OpLIKE => (set_ArgIndex 0 c :: rest, Some 2)
           | _ => let '(rest', r) := best_loop rest in (c :: rest', r)
           end
  end.

Definition BestIndex (info : IndexInfo) : res IndexInfo :=
  match best_loop (Constraints info) with
  | (cs, Some n) => Ok (set_IdxNum n (set_Constraints cs info))
  | (_, None) => Ok (set_IdxNum 0 info)
  end.

Definition all : list string := ["alpha"; "beta"; "alpine"].

Definition Open : res echoCursor := Ok (mkCursor all 0).

(** The prefix a LIKE pattern stands for: the pattern without one final
    percent sign. *)
Definition like_prefix (pat : string) : string :=
  let n := String.length pat in
  if (0 <? n)%nat && bool_decide (String.get (n - 1) pat = Some "%"%char)
  then String.substring 0 (n - 1) pat else pat.

Definition Filter (c : echoCursor) (idxNum : Z) (idxStr : string)
    (vals : list value) : echoCursor * res unit :=
  let rs :=
    if idxNum =? 1 then
      match vals with
      | [v] => List.filter (fun s => String.eqb s (as_string v)) all
      | _ => all
      end
    else if idxNum =? 2 then
      match vals with
      | [v] => List.filter (String.prefix (like_prefix (as_string v))) all
      | _ => all
      end
    else all in
  (mkCursor rs 0, Ok ()).

Definition Next (c : echoCursor) : echoCursor * res unit :=
  if pos c <? len (rows c) then (mkCursor (rows c) (pos c + 1), Ok ())
  else (c, Ok ()).

Definition Eof (c : echoCursor) : bool := len (rows c) <=? pos c.

Definition Column (c : echoCursor) (col : Z) : res value :=
  if (col =? 0) && (pos c <? len (rows c))
  then s ← index (rows c) (pos c); Ok (VText s)
  else Ok VNull.

Definition Rowid (c : echoCursor) : res Z := Ok (wrap64 (pos c + 1)).
Definition Close (c : echoCursor) : echoCursor * res unit := (c, Ok ()).

Definition step (a : call) (c : echoCursor) : echoCursor :=
  match a with
  | CallFilter n s vals => fst (Filter c n s vals)
  | CallNext => fst (Next c)
  | CallClose => fst (Close c)
  end.

End Provider.
End echo.

(** ** The match provider (examples/vtab_match) *)

Module match_.
Section Provider.
Context `{GoLib}.

Record matchCursor : Type := mkCursor { rows : list string; pos : Z }.

Fixpoint best_loop (cs : list Constraint) : list Constraint * bool :=
  match cs with
  | [] => ([], false)
  | c :: rest =>
      if negb (Usable c) || negb (Column c =? 0)
      then let '(rest', r) := best_loop rest in (c :: rest', r)
      else if op_is (Op c) OpMATCH
           then (set_Omit true (set_ArgIndex 0 c) :: rest, true)
           else let '(rest', r) := best_loop rest in (c :: rest', r)
  end.

Definition BestIndex (info : IndexInfo) : res IndexInfo :=
  match best_loop (Constraints info) with
  | (cs, true) => Ok (set_IdxNum 20 (set_Constraints cs info))
  | (_, false) => Ok (set_IdxNum 0 info)
  end.

Definition all : list string := ["alpha"; "beta"; "alpine"; "match"; "atlas"].

Definition Open : res matchCursor := Ok (mkCursor all 0).

Definition Filter (c : matchCursor) (idxNum : Z) (idxStr : string)
    (vals : list value) : matchCursor * res unit :=
  let rs :=
    match vals with
    | [v] =>
        if idxNum =? 20 then
          let term := ToLower (as_string v) in
          List.filter (fun s => Contains (ToLower s) term) all
        else all
    | _ => all
    end in
  (mkCursor rs 0, Ok ()).

Definition Next (c : matchCursor) : matchCursor * res unit :=
  if pos c <? len (rows c) then (mkCursor (rows c) (pos c + 1), Ok ())
  else (c, Ok ()).

Definition Eof (c : matchCursor) : bool := len (rows c) <=? pos c.

Definition Column (c : matchCursor) (col : Z) : res value :=
  if (col =? 0) && (pos c <? len (rows c))
  then s ← index (rows c) (pos c); Ok (VText s)
  else Ok VNull.

Definition Rowid (c : matchCursor) : res Z := Ok (wrap64 (pos c + 1)).
Definition Close (c : matchCursor) : matchCursor * res unit := (c, Ok ()).

Definition step (a : call) (c : matchCursor) : matchCursor :=
  match a with
  | CallFilter n s vals => fst (Filter c n s vals)
  | CallNext => fst (Next c)
  | CallClose => fst (Close c)
  end.

End Provider.
End match_.

(** ** The regexp provider *)

Module re.
Section Provider.
Context `{GoLib}.

Record reTable : Type := { omit : bool }.
Record reCursor : Type := mkCursor { rows : list string; pos : Z }.

(** The loop of [BestIndex], left by [break]; no plan tag is written when
    no constraint is taken. *)
Fixpoint best_loop (t : reTable) (cs : list Constraint)
    : list Constraint * bool :=
  match cs with
  | [] => ([], false)
  | c :: rest =>
      if negb (Usable c) || negb (Column c =? 0)
      then let '(rest', r) := best_loop t rest in (c :: rest', r)
      else if op_is (Op c) OpREGEXP
           then (set_Omit (omit t) (set_ArgIndex 0 c) :: rest, true)
           else let '(rest', r) := best_loop t rest in (c :: rest', r)
  end.

Definition BestIndex (t : reTable) (info : IndexInfo) : res IndexInfo :=
  match best_loop t (Constraints info) with
  | (cs, true) => Ok (set_IdxNum 10 (set_Constraints cs info))
  | (_, false) => Ok info
  end.

Definition all : list string := ["alpha"; "beta"; "alpine"; "regex"].

Definition Open (t : reTable) : res reCursor := Ok (mkCursor all 0).

Definition Filter (c : reCursor) (idxNum : Z) (idxStr : string)
    (vals : list value) : reCursor * res unit :=
  let rs :=
    match vals with
    | [v] =>
        if idxNum =? 10 then
          match regexp_Compile (as_string v) with
          | None => []
          | Some MatchString => List.filter MatchString all
          end
        else all
    | _ => all
    end in
  (mkCursor rs 0, Ok ()).

Definition Next (c : reCursor) : reCursor * res unit :=
  if pos c <? len (rows c) then (mkCursor (rows c) (pos c + 1), Ok ())
  else (c, Ok ()).

Definition Eof (c : reCursor) : bool := len (rows c) <=? pos c.

Definition Column (c : reCursor) (col : Z) : res value :=
  if (col =? 0) && (pos c <? len (rows c))
  then s ← index (rows c) (pos c); Ok (VText s)
  else Ok VNull.

Definition Rowid (c : reCursor) : res Z := Ok (wrap64 (pos c + 1)).
Definition Close (c : reCursor) : reCursor * res unit := (c, Ok ()).

Definition step (a : call) (c : reCursor) : reCursor :=
  match a with
  | CallFilter n s vals => fst (Filter c n s vals)
  | CallNext => fst (Next c)
  | CallClose => fst (Close c)
  end.

End Provider.
End re.

(** ** The dummy provider (module_test.go) *)

Module dummy.
Section Provider.
Context `{GoLib}.

Record row : Type := mkRow { rowid : Z; val : string }.
Record dummyCursor : Type := mkCursor { rows : list row; pos : Z }.

Definition BestIndex (info : IndexInfo) : res IndexInfo :=
  Ok (set_IdxNum 1 info).

Definition Open : res dummyCursor := Ok (mkCursor [] 0).

Definition Filter (c : dummyCursor) (idxNum : Z) (idxStr : string)
    (vals : list value) : dummyCursor * res unit :=
  if idxNum =? 1
  then (mkCursor [mkRow 1 "alpha"; mkRow 2 "beta"] 0, Ok ())
  else (mkCursor [mkRow 1 "unexpected"] 0, Ok ()).

Definition Next (c : dummyCursor) : dummyCursor * res unit :=
  if pos c <? len (rows c) then (mkCursor (rows c) (pos c + 1), Ok ())
  else (c, Ok ()).

Definition Eof (c : dummyCursor) : bool := len (rows c) <=? pos c.

Definition Column (c : dummyCursor) (col : Z) : res value :=
  if (pos c <? 0) || (len (rows c) <=? pos c) then Ok VNull
  else if col =? 0 then r ← index (rows c) (pos c); Ok (VText (val r))
  else Ok VNull.

Definition Rowid (c : dummyCursor) : res Z :=
  if (pos c <? 0) || (len (rows c) <=? pos c) then Ok 0
  else r ← index (rows c) (pos c); Ok (rowid r).

Definition Close (c : dummyCursor) : dummyCursor * res unit :=
  (mkCursor [] 0, Ok ()).

Definition step (a : call) (c : dummyCursor) : dummyCursor :=
  match a with
  | CallFilter n s vals => fst (Filter c n s vals)
  | CallNext => fst (Next c)
  | CallClose => fst (Close c)
  end.

End Provider.
End dummy.

(** ** The in-memory updater table (module_test.go) *)

Module updater.
Section Provider.
Context `{GoLib}.

Record updRow : Type := mkRow { id : Z; val : string }.
Record updaterTableX : Type := mkTable { rows : list updRow; nextID : Z }.

(** The table [Create] returns. *)
Definition Create : updaterTableX := mkTable [] 1.

(** [Insert(cols, rowid)]: the table and [*rowid] after the call. *)
Definition Insert (t : updaterTableX) (cols : list value) (rowid : Z)
    : res (updaterTableX * Z) :=
  c0 ← index cols 0;
  let val := as_string c0 in
  let id := if rowid =? 0 then nextID t else rowid in
  Ok (mkTable (rows t ++ [mkRow id val]) (wrap64 (id + 1)), id).

(** The loop of [Update] over the rows, from the first one. *)
Fixpoint update_loop (rs : list updRow) (oldRowid : Z) (cols : list value)
    (newRowid : option Z) : res (list updRow) :=
  match rs with
  | [] => Err ("row " +:+ Itoa oldRowid +:+ " not found")
  | r :: rest =>
      if id r =? oldRowid then
        c0 ← index cols 0;
        let id' :=
          match newRowid with
          | Some new =>
              if negb (new =? 0) && negb (new =? oldRowid) then new else id r
          | None => id r
          end in
        Ok (mkRow id' (as_string c0) :: rest)
      else
        rest' ← update_loop rest oldRowid cols newRowid;
        Ok (r :: rest')
  end.

Definition Update (t : updaterTableX) (oldRowid : Z) (cols : list value)
    (newRowid : option Z) : res updaterTableX :=
  rs ← update_loop (rows t) oldRowid cols newRowid;
  Ok (mkTable rs (nextID t)).

Fixpoint delete_loop (rs : list updRow) (oldRowid : Z) : res (list updRow) :=
  match rs with
  | [] => Err ("row " +:+ Itoa oldRowid +:+ " not found")
  | r :: rest =>
      if id r =? oldRowid then Ok rest
      else rest' ← delete_loop rest oldRowid; Ok (r :: rest')
  end.

Definition Delete (t : updaterTableX) (oldRowid : Z) : res updaterTableX :=
  rs ← delete_loop (rows t) oldRowid;
  Ok (mkTable rs (nextID t)).

(** A mutating statement of the engine. *)
Inductive stmt : Type :=
| SInsert (cols : list value) (rowid : Z)
| SUpdate (oldRowid : Z) (cols : list value) (newRowid : option Z)
| SDelete (oldRowid : Z).

(** One statement: the table afterwards (unchanged when the call fails)
    and the rowid an [Insert] reported. *)
Definition exec (s : stmt) (t : updaterTableX) : updaterTableX * option Z :=
  match s with
  | SInsert cols rowid =>
      match Insert t cols rowid with
      | Ok (t', r) => (t', Some r)
      | _ => (t, None)
      end
  | SUpdate old cols new =>
      match Update t old cols new with
      | Ok t' => (t', None)
      | _ => (t, None)
      end
  | SDelete old =>
      match Delete t old with
      | Ok t' => (t', None)
      | _ => (t, None)
      end
  end.

(** A sequence of statements: the final table and the rowids reported by
    the inserts, in order. *)
Fixpoint run (ss : list stmt) (t : updaterTableX) : updaterTableX * list Z :=
  match ss with
  | [] => (t, [])
  | s :: rest =>
      let '(t1, r) := exec s t in
      let '(t2, ids) := run rest t1 in
      (t2, match r with Some i => i :: ids | None => ids end)
  end.

(** Statements that are inserts with the unset rowid, or deletes. *)
Definition auto_or_delete (s : stmt) : bool :=
  match s with
  | SInsert _ rowid => rowid =? 0
  | SDelete _ => true
  | SUpdate _ _ _ => false
  end.

End Provider.
End updater.

(** ** The ArgIndex table and its test (module_test.go) *)

Module argidx.
Section Provider.
Context `{GoLib}.

(** The loop of [BestIndex] with its counter [next]. *)
Fixpoint best_loop (next : Z) (cs : list Constraint) : list Constraint :=
  match cs with
  | [] => []
  | c :: rest =>
      if negb (Usable c) || negb (op_is (Op c) OpEQ)
      then c :: best_loop next rest
      else set_ArgIndex next c :: best_loop (next + 1) rest
  end.

Definition BestIndex (info : IndexInfo) : res IndexInfo :=
  Ok (set_Constraints (best_loop 0 (Constraints info)) info).

(** What [TestVtabConstraintArgIndex] requires of the values its [Filter]
    captured for [WHERE c1 = 10 AND c2 = 20]. *)
Definition test_accepts (vals : list value) : bool :=
  match vals with
  | [VInt v1; VInt v2] => (v1 =? 10) && (v2 =? 20)
  | _ => false
  end.

End Provider.
End argidx.

(** ** The table with an oversized plan tag (module_test.go) *)

Module overflow.

Definition BestIndex (info : IndexInfo) : res IndexInfo :=
  Ok (set_IdxNum (MaxInt32 + 1) info).

(** What [TestVtabIdxNumOverflowError] requires of the error text. *)
Definition test_accepts (msg : string) : bool :=
  Contains msg "IdxNum" && Contains msg "int32".

End overflow.

(** ** The bridge dispatcher *)

Module bridge.
Section Dispatch.
Context `{GoLib}.

(** Modelled from the spec: the planning and filter trampolines of the
    Bridge Dispatcher (package [vtab] and the driver's [xBestIndex] /
    [xFilter]), which are not among the sources; spec sections 3, 4.3,
    4.4, 4.6, 6 and 7.  The dispatcher hands the provider a draft, checks
    what the provider wrote (the plan tag within 32 bits, the ArgIndex
    slots a dense 0-based sequence), and only then delivers the plan; the
    argument vector of [Filter] has one position per slot.  A slot is a
    0-based position, so a constraint is requested when its ArgIndex is
    not negative, and the draft carries -1. *)
Definition unrequested : Z := -1.

(** A candidate predicate of the engine: column, operator, whether its
    comparison value is known. *)
Record candidate : Type := mkCandidate {
  cand_column : Z; cand_op : ConstraintOp; cand_usable : bool;
}.

Definition draft (cands : list candidate) (orderBy : list (Z * bool))
    (colUsed : Z) : IndexInfo :=
  mkIndexInfo
    (map (fun c => mkConstraint (cand_column c) (cand_op c) (cand_usable c)
                     unrequested false) cands)
    orderBy colUsed 0 "" false.

Definition requested (c : Constraint) : bool := 0 <=? ArgIndex c.

(** The position in the argument vector a constraint's value goes to. *)
Definition slot_of (c : Constraint) : option nat :=
  if requested c then Some (Z.to_nat (ArgIndex c)) else None.

(** The slots a BestIndex call assigned, in constraint order. *)
Definition slots (cs : list Constraint) : list nat := omap slot_of cs.

(** A dense 0-based sequence: no slot twice, every slot below their
    number. *)
Definition dense (l : list nat) : bool :=
  bool_decide (NoDup l) && forallb (fun k => (k <? length l)%nat) l.

Definition check_IdxNum (n : Z) : res Z :=
  if in_int32 n then Ok n
  else Err ("vtab: BestIndex: IdxNum " +:+ Itoa n +:+ " does not fit int32").

Definition check_ArgIndex (cs : list Constraint) : res unit :=
  if dense (slots cs) then Ok ()
  else Err "vtab: BestIndex: ArgIndex values are not a dense 0-based sequence".

(** What reaches the engine after planning. *)
Record plan : Type := mkPlan {
  plan_idxNum : Z;
  plan_idxStr : string;
  plan_usage : list Constraint;
  plan_orderByConsumed : bool;
}.

(** The planning trampoline around a provider's [BestIndex]; a fault of
    the provider becomes an error. *)
Definition xBestIndex (BestIndex : IndexInfo -> res IndexInfo)
    (info : IndexInfo) : res plan :=
  match BestIndex info with
  | Ok info' =>
      n ← check_IdxNum (IdxNum info');
      _ ← check_ArgIndex (Constraints info');
      Ok (mkPlan n (IdxStr info') (Constraints info') (OrderByConsumed info'))
  | Err e => Err e
  | Panic => Err "vtab: BestIndex panicked"
  end.

(** The argument vector: every requested constraint's comparison value
    written to its slot.  [slot] says where a constraint's value goes. *)
Fixpoint place (slot : Constraint -> option nat) (cs : list Constraint)
    (rhs : list value) (argv : list value) : list value :=
  match cs, rhs with
  | c :: cs', v :: rhs' =>
      place slot cs' rhs' (match slot c with
                           | Some k => <[k := v]> argv
                           | None => argv
                           end)
  | _, _ => argv
  end.

Definition argv_by (slot : Constraint -> option nat) (cs : list Constraint)
    (rhs : list value) : list value :=
  place slot cs rhs (replicate (length (omap slot cs)) VNull).

Definition argv (cs : list Constraint) (rhs : list value) : list value :=
  argv_by slot_of cs rhs.

(** The [Filter] call the engine makes for a delivered plan, given the
    comparison values of the candidates. *)
Definition xFilter (p : plan) (rhs : list value) : call :=
  CallFilter (plan_idxNum p) (plan_idxStr p) (argv (plan_usage p) rhs).

(** Planning followed by the [Filter] call of the scan. *)
Definition plan_and_filter (BestIndex : IndexInfo -> res IndexInfo)
    (info : IndexInfo) (rhs : list value) : res call :=
  p ← xBestIndex BestIndex info;
  Ok (xFilter p rhs).



End Dispatch.
End bridge.

(** ** A library instance for ASCII text *)

(** An implementation of the library class on the part of its domain where
    Go's behaviour needs no table: records whose fields are free of the
    delimiter, the quote, carriage return and line feed are written as the
    fields joined by the delimiter and ended by a line feed, and read back
    by cutting at these bytes (empty lines skipped); letters are lowered
    within ASCII; there are no REAL values and no regular expression
    compiles.  Elsewhere the routines fail. *)
Module ascii_lib.

Definition special (comma : Z) (a : ascii) : bool :=
  let n := Z.of_nat (nat_of_ascii a) in
  (n =? comma) || (n =? 34) || (n =? 13) || (n =? 10) || (128 <=? n).

Definition is_space (a : ascii) : bool :=
  let n := nat_of_ascii a in
  (n =? 32)%nat || ((9 <=? n)%nat && (n <=? 13)%nat).

(** A field [csv.Writer] writes as it is. *)
Definition plain_field (comma : Z) (f : string) : bool :=
  forallb (fun a => negb (special comma a)) (list_ascii_of_string f)
  && negb (String.eqb f "\.")
  && match f with
     | String a _ => negb (is_space a)
     | EmptyString => true
     end.

Definition valid_comma (comma : Z) : bool :=
  (0 <? comma) && (comma <? 128) && negb (comma =? 34)
  && negb (comma =? 13) && negb (comma =? 10).

Definition Write (comma : Z) (r : list string) : res string :=
  if negb (valid_comma comma) then Err "csv: invalid field or comment delimiter"
  else if forallb (plain_field comma) r
  then Ok (join (byte_str comma) r +:+ byte_str 10)
  else Err "ascii_lib: field needs quoting".

(** One line of input, cut at the delimiter: the fields read so far (the
    last one first, itself reversed), then the rest of the input. *)
Fixpoint read_line (comma : Z) (s : string) (cur : list ascii)
    (done : list string) : res (list string * string) :=
  let close := rev (string_of_list_ascii (rev cur) :: done) in
  match s with
  | EmptyString => Ok (close, EmptyString)
  | String a s' =>
      let n := Z.of_nat (nat_of_ascii a) in
      if n =? 10 then Ok (close, s')
      else if n =? comma then
        read_line comma s' [] (string_of_list_ascii (rev cur) :: done)
      else if special comma a then Err "ascii_lib: quoted or non-ASCII input"
      else read_line comma s' (a :: cur) done
  end.

Fixpoint skip_empty (s : string) : string :=
  match s with
  | String a s' => if (nat_of_ascii a =? 10)%nat then skip_empty s' else s
  | EmptyString => s
  end.

Definition Read (comma : Z) (s : string) : res (list string * string) :=
  if negb (valid_comma comma) then Err "csv: invalid field or comment delimiter"
  else match skip_empty s with
       | EmptyString => Err "EOF"
       | s1 => read_line comma s1 [] []
       end.

Fixpoint read_all (fuel : nat) (comma : Z) (s : string)
    : res (list (list string)) :=
  match fuel with
  | O => Ok []
  | S fuel' =>
      match skip_empty s with
      | EmptyString => Ok []
      | s1 =>
          '(r, rest) ← read_line comma s1 [] [];
          rs ← read_all fuel' comma rest;
          Ok (r :: rs)
      end
  end.

Definition ReadAll (comma : Z) (s : string) : res (list (list string)) :=
  if negb (valid_comma comma) then Err "csv: invalid field or comment delimiter"
  else read_all (S (String.length s)) comma s.

Definition lower (a : ascii) : ascii :=
  let n := nat_of_ascii a in
  if (65 <=? n)%nat && (n <=? 90)%nat then ascii_of_nat (n + 32) else a.

Definition DecodeRune (s : string) : Z :=
  match s with
  | String a _ =>
      let n := Z.of_nat (nat_of_ascii a) in
      if n <? 128 then n else RuneError
  | EmptyString => RuneError
  end.

Definition lib : GoLib := {|
  float64 := Empty_set;
  FormatFloat := fun f => match f with end;
  csv_Write := Write;
  csv_Read := Read;
  csv_ReadAll := ReadAll;
  ToLower := fun s => string_of_list_ascii (map lower (list_ascii_of_string s));
  DecodeRuneInString := DecodeRune;
  regexp_Compile := fun _ => None;
|}.

End ascii_lib.

#[global] Existing Instance ascii_lib.lib | 100.

(** ** Scans *)

(** The CSV cursor after [n] calls of [Next]. *)
Fixpoint csv_advance `{GoLib} (n : nat) (c : csv.csvCursor) : csv.csvCursor :=
  match n with
  | O => c
  | S n' => fst (csv.Next (csv_advance n' c))
  end.


(** What holds of a cursor with rows [rs] at position [p], given its [Eof]
    answer and what [Next] returns: the position is within the rows, [Eof]
    says exactly that it is at their end, and there [Next] returns nil and
    changes nothing. *)
Definition cursor_ok {C R : Type} (rs : list R) (p : Z) (eof : bool)
    (c : C) (next : C * res unit) : Prop :=
  0 <= p <= len rs /\
  (eof = true <-> p = len rs) /\
  (eof = true -> next = (c, Ok ())).

Definition within {R} (rs : list R) (p : Z) : Prop := 0 <= p <= len rs.

(** The rows other than the one at position [idx] are where they were:
    in the CSV table, where a row's rowid is its position plus one, they
    kept their rowids. *)
Definition others_in_place (rs rs' : list (list string)) (idx : nat) : Prop :=
  forall j : nat, j <> idx -> rs' !! j = rs !! j.

(** ** Reattachment of the CSV table *)

(** The data-definition string [Create] declares for the columns of [t]. *)
Definition csv_schema `{GoLib} (name : string) (t : csv.csvTable) : string :=
  "CREATE TABLE " +:+ name +:+ "(" +:+ join "," (csv.cols t) +:+ ")".

(** What [Create] establishes and the statements keep: every row has one
    field per column, the table's configuration is the one parsed from the
    declaration arguments, the column names of a file without header are
    the default ones, and the context accepted the schema. *)
Record csv_inv `{GoLib} (ctx : csv.Context) (args : list string)
    (t : csv.csvTable) : Prop := {
  inv_width : Forall (fun r => length r = length (csv.cols t)) (csv.rows t);
  inv_args : 3 <= len args;
  inv_file : csv.file t = csv.a_file (csv.parseCSVArgs (drop 3 args));
  inv_named : csv.file t <> "";
  inv_delim : csv.delimiter t = csv.a_delim (csv.parseCSVArgs (drop 3 args));
  inv_header : csv.header t = csv.a_header (csv.parseCSVArgs (drop 3 args));
  inv_quote : csv.quote t = csv.a_quote (csv.parseCSVArgs (drop 3 args));
  inv_cols : csv.header t = false ->
             csv.cols t = csv.default_cols (length (csv.cols t));
  inv_declared : exists name, index args 2 = Ok name /\
                   csv.ctx_Declare ctx (csv_schema name t) = Ok ();
}.

(** ** The updater table's cursor (module_test.go) *)

Module updater_cursor.
Section Provider.
Context `{GoLib}.

(** The cursor keeps a pointer to its table and a position; the table is
    the table argument of the methods, read as it is at the call. *)
Record updaterCursorX : Type := mkCursor { pos : Z }.

Definition Open : res updaterCursorX := Ok (mkCursor 0).

Definition Filter (c : updaterCursorX) (idxNum : Z) (idxStr : string)
    (vals : list value) : updaterCursorX * res unit :=
  (mkCursor 0, Ok ()).

Definition Next (t : updater.updaterTableX) (c : updaterCursorX)
    : updaterCursorX * res unit :=
  if pos c <? len (updater.rows t) then (mkCursor (pos c + 1), Ok ())
  else (c, Ok ()).

Definition Eof (t : updater.updaterTableX) (c : updaterCursorX) : bool :=
  len (updater.rows t) <=? pos c.

Definition Column (t : updater.updaterTableX) (c : updaterCursorX) (col : Z)
    : res value :=
  if len (updater.rows t) <=? pos c then Ok VNull
  else if col =? 0
       then r ← index (updater.rows t) (pos c); Ok (VText (updater.val r))
       else Ok VNull.

Definition Rowid (t : updater.updaterTableX) (c : updaterCursorX) : res Z :=
  r ← index (updater.rows t) (pos c); Ok (updater.id r).

Definition Close (c : updaterCursorX) : updaterCursorX * res unit := (c, Ok ()).

(** The cursor after [n] calls of [Next] on an unchanging table. *)
Fixpoint advance (t : updater.updaterTableX) (n : nat) (c : updaterCursorX)
    : updaterCursorX :=
  match n with
  | O => c
  | S n' => fst (Next t (advance t n' c))
  end.

End Provider.
End updater_cursor.

(** ** Statement arguments (the driver's stmt.go) *)

Module driver.

(** [driver.NamedValue], over any type of values. *)
Record NamedValue (A : Type) : Type := mkNamed {
  Name : string;
  Ordinal : Z;
  Value : A;
}.
Arguments mkNamed {A} Name Ordinal Value.
Arguments Name {A} n.
Arguments Ordinal {A} n.
Arguments Value {A} n.

(** The loop of [toNamedValues] from index [i] on. *)
Fixpoint toNamedValues_from {A} (i : Z) (vals : list A) : list (NamedValue A) :=
  match vals with
  | [] => []
  | val :: rest => mkNamed "" (i + 1) val :: toNamedValues_from (i + 1) rest
  end.

Definition toNamedValues {A} (vals : list A) : list (NamedValue A) :=
  toNamedValues_from 0 vals.

End driver.

(** ** Scans of the other cursors *)

(** The echo cursor after [n] calls of [Next]. *)
Fixpoint echo_advance `{GoLib} (n : nat) (c : echo.echoCursor) : echo.echoCursor :=
  match n with
  | O => c
  | S n' => fst (echo.Next (echo_advance n' c))
  end.

(** A constraint the echo table can exploit: usable, on column 0, with
    operator EQ or LIKE. *)
Definition echo_takes (c : Constraint) : Prop :=
  Usable c = true /\ Column c = 0 /\ (Op c = OpEQ \/ Op c = OpLIKE).

(** Statements of the updater table that assign no rowid of the caller's:
    inserts with the unset rowid, deletes, and updates whose new rowid is
    nil, zero or the old one. *)
Definition keeps_rowids `{GoLib} (s : updater.stmt) : bool :=
  match s with
  | updater.SInsert _ rowid => rowid =? 0
  | updater.SDelete _ => true
  | updater.SUpdate old _ new =>
      match new with
      | None => true
      | Some n => (n =? 0) || (n =? old)
      end
  end.


(** * Properties *)

(** ** Arithmetic and list facts *)

Lemma wrap64_id (z : Z) : MinInt64 <= z <= MaxInt64 -> wrap64 z = z.
Proof.
  unfold MinInt64, MaxInt64, wrap64. intros Hz.
  rewrite Z.mod_small by lia. lia.
Qed.

Lemma len_nonneg {A} (l : list A) : 0 <= len l.
Proof. unfold len. lia. Qed.

Lemma len_app {A} (l k : list A) : len (l ++ k) = len l + len k.
Proof. unfold len. rewrite length_app. lia. Qed.

Lemma len_cons {A} (a : A) (l : list A) : len (a :: l) = len l + 1.
Proof. unfold len. cbn [length]. lia. Qed.

Lemma index_Ok {A} (l : list A) (i : Z) (a : A) :
  index l i = Ok a <-> 0 <= i /\ l !! Z.to_nat i = Some a.
Proof.
  unfold index, len. split.
  - destruct (i <? 0) eqn:Hi; [discriminate|]. cbn [orb].
    destruct (Z.of_nat (length l) <=? i); [discriminate|].
    destruct (l !! Z.to_nat i) eqn:Hl; [|discriminate].
    intros [= ->]. split; [lia | reflexivity].
  - intros [Hi Hl]. pose proof (lookup_lt_Some _ _ _ Hl) as Hlt.
    destruct (i <? 0) eqn:Hi'; [lia|]. cbn [orb].
    destruct (Z.of_nat (length l) <=? i) eqn:Hle; [lia|].
    rewrite Hl. reflexivity.
Qed.

(** Iterating a step function over a list of calls keeps an invariant of
    the single steps. *)
Lemma run_calls_invariant {S A : Type} (step : A -> S -> S) (P : S -> Prop) :
  (forall a s, P s -> P (step a s)) ->
  forall l s, P s -> P (run_calls step l s).
Proof.
  intros Hstep l. unfold run_calls.
  induction l as [|a l IH]; intros s Hs; cbn [fold_left]; [exact Hs|].
  apply IH, Hstep, Hs.
Qed.

(** ** The updater table: rowid allocation *)

Section UpdaterFacts.
Context `{GoLib}.
Import updater.

Lemma Insert_auto (t : updaterTableX) (cols : list value) :
  Insert t cols 0 = Panic \/
  exists c0 : value, Insert t cols 0
    = Ok (mkTable (rows t ++ [mkRow (nextID t) (as_string c0)])
                  (wrap64 (nextID t + 1)), nextID t).
Proof.
  unfold Insert. destruct (index cols 0) as [c0| |] eqn:Hc.
  - right. exists c0. reflexivity.
  - exfalso. unfold index in Hc.
    destruct ((0 <? 0) || (len cols <=? 0)); [discriminate|].
    destruct (cols !! Z.to_nat 0); discriminate.
  - left. reflexivity.
Qed.

Lemma Delete_nextID (t t' : updaterTableX) (r : Z) :
  Delete t r = Ok t' -> nextID t' = nextID t.
Proof.
  unfold Delete. destruct (delete_loop (rows t) r); cbn; [|discriminate..].
  intros [= <-]. reflexivity.
Qed.

(** One sentinel insert or delete moves the counter up by at most one and
    reports, if anything, the old counter. *)
Lemma exec_auto (s : stmt) (t t' : updaterTableX) (r : option Z) :
  auto_or_delete s = true ->
  0 < nextID t < MaxInt64 ->
  exec s t = (t', r) ->
  (r = None /\ nextID t' = nextID t) \/
  (r = Some (nextID t) /\ nextID t' = nextID t + 1).
Proof.
  intros Hs Hn. destruct s as [cols rowid|old cols new|old]; cbn in Hs.
  - apply Z.eqb_eq in Hs. subst rowid. cbn [exec].
    destruct (Insert_auto t cols) as [->|[c0 ->]].
    + intros [= <- <-]. left. split; reflexivity.
    + intros [= <- <-]. right. split; [reflexivity|]. cbn [nextID].
      apply wrap64_id. unfold MinInt64, MaxInt64 in *. lia.
  - discriminate.
  - cbn [exec]. destruct (Delete t old) as [t1| |] eqn:Hd.
    + intros [= <- <-]. left. split; [reflexivity|].
      eapply Delete_nextID, Hd.
    + intros [= <- <-]. left. split; reflexivity.
    + intros [= <- <-]. left. split; reflexivity.
Qed.

(** The rowids a run of sentinel inserts and deletes reports lie between
    the counter before and the counter after, in increasing order. *)
Lemma run_auto (ss : list stmt) : forall (t t' : updaterTableX) (ids : list Z),
  forallb auto_or_delete ss = true ->
  0 < nextID t -> nextID t + len ss <= MaxInt64 ->
  run ss t = (t', ids) ->
  nextID t <= nextID t' <= nextID t + len ss /\
  Forall (fun y => nextID t <= y < nextID t') ids /\
  StronglySorted Z.lt ids.
Proof.
  induction ss as [|s ss IH]; intros t t' ids Hall Hpos Hbound Hrun.
  - cbn in Hrun. injection Hrun as <- <-. unfold len; cbn.
    repeat split; try lia; constructor.
  - cbn [forallb] in Hall. apply andb_true_iff in Hall as [Hs Hall].
    rewrite len_cons in Hbound. pose proof (len_nonneg ss) as Hlen.
    cbn [run] in Hrun.
    destruct (exec s t) as [t1 r] eqn:Hexec.
    destruct (run ss t1) as [t2 ids'] eqn:Hrest.
    injection Hrun as <- <-.
    apply exec_auto in Hexec; [|exact Hs|lia].
    rewrite len_cons.
    destruct Hexec as [[-> Hn]|[-> Hn]].
    + specialize (IH t1 t2 ids' Hall ltac:(lia) ltac:(lia) Hrest)
        as (Hb & Hf & Hsort).
      rewrite Hn in *. repeat split; try lia; assumption.
    + specialize (IH t1 t2 ids' Hall ltac:(lia) ltac:(lia) Hrest)
        as (Hb & Hf & Hsort).
      rewrite Hn in *. repeat split; try lia.
      * constructor; [lia|]. eapply Forall_impl; [exact Hf|].
        cbn. intros y Hy. lia.
      * constructor; [exact Hsort|]. eapply Forall_impl; [exact Hf|].
        cbn. intros y Hy. lia.
Qed.

Lemma sorted_prefix_below (ids pre post : list Z) (x : Z) :
  StronglySorted Z.lt ids -> ids = (pre ++ x :: post)%list ->
  Forall (fun y => y < x) pre.
Proof.
  intros Hs ->. induction pre as [|p pre IH]; [constructor|].
  cbn in Hs. apply StronglySorted_inv in Hs as [Hs Hp].
  constructor; [|apply IH, Hs].
  rewrite Forall_forall in Hp. apply Hp. rewrite list_elem_of_In.
  apply in_or_app. right. left. reflexivity.
Qed.

Lemma sorted_NoDup (ids : list Z) : StronglySorted Z.lt ids -> NoDup ids.
Proof.
  induction 1 as [|x l Hs IH Hx]; constructor; [|exact IH].
  intros Hin. rewrite Forall_forall in Hx. specialize (Hx x Hin). lia.
Qed.

End UpdaterFacts.

(** C5.  updaterTableX: over a sequence of inserts with the unset (zero)
    rowid interleaved with deletes, run on a freshly created table, every
    rowid assigned is strictly greater than all rowids assigned before it,
    and none is assigned twice; the sequence is shorter than the positive
    range of int64, which is what keeps the counter from wrapping.  In
    particular three inserts get 1, 2, 3, and after deleting rowid 2 (rows
    1 and 3 remain) the next insert gets 4. *)
Theorem auto_rowids_strictly_increasing `{GoLib}
    (ss : list updater.stmt) (t' : updater.updaterTableX) (ids : list Z) :
  forallb updater.auto_or_delete ss = true ->
  len ss < MaxInt64 ->
  updater.run ss updater.Create = (t', ids) ->
  (forall pre x post, ids = (pre ++ x :: post)%list ->
     Forall (fun y => y < x) pre) /\
  NoDup ids /\
  (forall a b c d : value,
     updater.run [updater.SInsert [a] 0; updater.SInsert [b] 0;
                  updater.SInsert [c] 0; updater.SDelete 2] updater.Create
       = (updater.mkTable [updater.mkRow 1 (as_string a);
                           updater.mkRow 3 (as_string c)] 4, [1; 2; 3]) /\
     snd (updater.run [updater.SInsert [a] 0; updater.SInsert [b] 0;
                       updater.SInsert [c] 0; updater.SDelete 2;
                       updater.SInsert [d] 0] updater.Create)
       = [1; 2; 3; 4]).
Proof.
  intros Hall Hlen Hrun.
  destruct (run_auto ss updater.Create t' ids Hall) as (_ & _ & Hsort);
    [reflexivity | cbn; lia | exact Hrun |].
  split; [|split].
  - intros pre x post Hids. eapply sorted_prefix_below; eassumption.
  - apply sorted_NoDup, Hsort.
  - intros a b c d. split; reflexivity.
Qed.

Lemma auto_rowids_strictly_increasing_witness :
  NoDup [1; 2; 3; 4].
Proof.
  exact (proj1 (proj2
    (@auto_rowids_strictly_increasing ascii_lib.lib
       [updater.SInsert [VText "A"] 0; updater.SInsert [VText "B"] 0;
        updater.SInsert [VText "C"] 0; updater.SDelete 2;
        updater.SInsert [VText "D"] 0]
       (updater.mkTable [updater.mkRow 1 "A"; updater.mkRow 3 "C";
                         updater.mkRow 4 "D"] 5)
       [1; 2; 3; 4] eq_refl eq_refl eq_refl))).
Defined.

(** C10.  updaterTableX.Insert with a caller-supplied non-zero rowid r
    appends the row under r and sets the counter to r+1 (the int64 sum)
    whatever rowids the table holds; so two sentinel inserts (rowids 1, 2),
    an insert with rowid 1 and one more sentinel insert leave two different
    rows with rowid 1 (and two with rowid 2) in the table. *)
Theorem explicit_rowid_resets_counter `{GoLib}
    (t : updater.updaterTableX) (c0 : value) (cols : list value) (r : Z) :
  r <> 0 ->
  updater.Insert t (c0 :: cols) r
    = Ok (updater.mkTable
            (updater.rows t ++ [updater.mkRow r (as_string c0)])
            (wrap64 (r + 1)), r) /\
  (MinInt64 <= r < MaxInt64 -> wrap64 (r + 1) = r + 1) /\
  (forall a : value,
     let t4 := fst (updater.run
                      [updater.SInsert [a] 0; updater.SInsert [a] 0;
                       updater.SInsert [a] 1; updater.SInsert [a] 0]
                      updater.Create) in
     map updater.id (updater.rows t4) = [1; 2; 1; 2] /\
     exists i j ri rj, i <> j /\
       updater.rows t4 !! i = Some ri /\ updater.rows t4 !! j = Some rj /\
       updater.id ri = updater.id rj).
Proof.
  intros Hr. split; [|split].
  - unfold updater.Insert. cbn. apply Z.eqb_neq in Hr. rewrite Hr. reflexivity.
  - intros Hb. apply wrap64_id. unfold MinInt64, MaxInt64 in *. lia.
  - intros a. split; [reflexivity|].
    exists 0%nat, 2%nat, (updater.mkRow 1 (as_string a)),
      (updater.mkRow 1 (as_string a)).
    repeat split; discriminate.
Qed.

Lemma explicit_rowid_resets_counter_witness :
  updater.Insert
    (updater.mkTable [updater.mkRow 1 "Alice"; updater.mkRow 2 "Bob"] 3)
    [VText "Carol"] 1
  = Ok (updater.mkTable [updater.mkRow 1 "Alice"; updater.mkRow 2 "Bob";
                         updater.mkRow 1 "Carol"] 2, 1).
Proof.
  exact (proj1 (@explicit_rowid_resets_counter ascii_lib.lib
    (updater.mkTable [updater.mkRow 1 "Alice"; updater.mkRow 2 "Bob"] 3)
    (VText "Carol") [] 1 ltac:(discriminate))).
Defined.

(** ** Cursors: the position invariant *)

Section CursorFacts.
Context `{GoLib}.

Lemma within_start {R} (rs : list R) : within rs 0.
Proof. split; [lia | apply len_nonneg]. Qed.

Lemma csv_step_within (a : csv.csvTable * call) (c : csv.csvCursor) :
  within (csv.crows c) (csv.pos c) ->
  within (csv.crows (csv.step a c)) (csv.pos (csv.step a c)).
Proof.
  intros Hc. destruct a as [t [n s vals| |]]; cbn [csv.step].
  - unfold csv.Filter.
    destruct (n =? 1); [|apply within_start].
    destruct (Atoi s) as [col|]; [|apply within_start].
    destruct ((col <? 0) || (len (csv.cols t) <=? col)); [apply within_start|].
    destruct vals; apply within_start.
  - unfold csv.Next. destruct (Z.ltb_spec (csv.pos c) (len (csv.crows c)));
      cbn; [|exact Hc]. unfold within in *. lia.
  - exact Hc.
Qed.

Lemma echo_step_within (a : call) (c : echo.echoCursor) :
  within (echo.rows c) (echo.pos c) ->
  within (echo.rows (echo.step a c)) (echo.pos (echo.step a c)).
Proof.
  intros Hc. destruct a as [n s vals| |]; cbn [echo.step].
  - apply within_start.
  - unfold echo.Next. destruct (Z.ltb_spec (echo.pos c) (len (echo.rows c)));
      cbn; [|exact Hc]. unfold within in *. lia.
  - exact Hc.
Qed.

Lemma match_step_within (a : call) (c : match_.matchCursor) :
  within (match_.rows c) (match_.pos c) ->
  within (match_.rows (match_.step a c)) (match_.pos (match_.step a c)).
Proof.
  intros Hc. destruct a as [n s vals| |]; cbn [match_.step].
  - apply within_start.
  - unfold match_.Next.
    destruct (Z.ltb_spec (match_.pos c) (len (match_.rows c)));
      cbn; [|exact Hc]. unfold within in *. lia.
  - exact Hc.
Qed.

Lemma re_step_within (a : call) (c : re.reCursor) :
  within (re.rows c) (re.pos c) ->
  within (re.rows (re.step a c)) (re.pos (re.step a c)).
Proof.
  intros Hc. destruct a as [n s vals| |]; cbn [re.step].
  - apply within_start.
  - unfold re.Next. destruct (Z.ltb_spec (re.pos c) (len (re.rows c)));
      cbn; [|exact Hc]. unfold within in *. lia.
  - exact Hc.
Qed.

Lemma dummy_step_within (a : call) (c : dummy.dummyCursor) :
  within (dummy.rows c) (dummy.pos c) ->
  within (dummy.rows (dummy.step a c)) (dummy.pos (dummy.step a c)).
Proof.
  intros Hc. destruct a as [n s vals| |]; cbn [dummy.step].
  - unfold dummy.Filter. destruct (n =? 1); apply within_start.
  - unfold dummy.Next.
    destruct (Z.ltb_spec (dummy.pos c) (len (dummy.rows c)));
      cbn; [|exact Hc]. unfold within in *. lia.
  - apply within_start.
Qed.

(** From the bound on the position to the three facts of [cursor_ok], for a
    [Next] and an [Eof] written as every cursor of the repository writes
    them. *)
Lemma within_cursor_ok {C R : Type} (rs : list R) (p : Z) (c : C) (adv : C) :
  within rs p ->
  cursor_ok rs p (len rs <=? p) c
    (if p <? len rs then (adv, Ok ()) else (c, Ok ())).
Proof.
  intros [H0 H1]. unfold cursor_ok. split; [split; assumption|]. split.
  - rewrite Z.leb_le. lia.
  - rewrite Z.leb_le. intros Hle.
    destruct (Z.ltb_spec p (len rs)); [lia | reflexivity].
Qed.

End CursorFacts.

(** C9.  For csvCursor, echoCursor, matchCursor, dummyCursor and reCursor:
    after any sequence of Filter, Next and Close calls on a cursor obtained
    from Open (for the CSV cursor each call sees the table as it is then),
    0 <= pos <= len(rows); Eof() is true exactly when pos = len(rows); and
    when Eof() is true Next() returns nil and leaves the cursor as it
    was. *)
Theorem cursor_position_invariant `{GoLib} :
  (forall (t0 : csv.csvTable) (calls : list (csv.csvTable * call)) c0,
     csv.Open t0 = Ok c0 ->
     let c := run_calls csv.step calls c0 in
     cursor_ok (csv.crows c) (csv.pos c) (csv.Eof c) c (csv.Next c)) /\
  (forall (calls : list call) c0,
     echo.Open = Ok c0 ->
     let c := run_calls echo.step calls c0 in
     cursor_ok (echo.rows c) (echo.pos c) (echo.Eof c) c (echo.Next c)) /\
  (forall (calls : list call) c0,
     match_.Open = Ok c0 ->
     let c := run_calls match_.step calls c0 in
     cursor_ok (match_.rows c) (match_.pos c) (match_.Eof c) c (match_.Next c)) /\
  (forall (calls : list call) c0,
     dummy.Open = Ok c0 ->
     let c := run_calls dummy.step calls c0 in
     cursor_ok (dummy.rows c) (dummy.pos c) (dummy.Eof c) c (dummy.Next c)) /\
  (forall (t : re.reTable) (calls : list call) c0,
     re.Open t = Ok c0 ->
     let c := run_calls re.step calls c0 in
     cursor_ok (re.rows c) (re.pos c) (re.Eof c) c (re.Next c)).
Proof.
  split; [|split; [|split; [|split]]].
  all: try (intros t calls c0 [= <-]); try (intros calls c0 [= <-]).
  all: intros c; apply within_cursor_ok; subst c.
  - apply (run_calls_invariant csv.step
             (fun c => within (csv.crows c) (csv.pos c)));
      [apply csv_step_within | apply within_start].
  - apply (run_calls_invariant echo.step
             (fun c => within (echo.rows c) (echo.pos c)));
      [apply echo_step_within | apply within_start].
  - apply (run_calls_invariant match_.step
             (fun c => within (match_.rows c) (match_.pos c)));
      [apply match_step_within | apply within_start].
  - apply (run_calls_invariant dummy.step
             (fun c => within (dummy.rows c) (dummy.pos c)));
      [apply dummy_step_within | apply within_start].
  - apply (run_calls_invariant re.step
             (fun c => within (re.rows c) (re.pos c)));
      [apply re_step_within | apply within_start].
Qed.

Lemma cursor_position_invariant_witness :
  let c := run_calls echo.step
             [CallFilter 1 "" [VText "alpha"]; CallNext; CallNext; CallClose]
             (echo.mkCursor echo.all 0) in
  cursor_ok (echo.rows c) (echo.pos c) (echo.Eof c) c (echo.Next c).
Proof.
  exact (proj1 (proj2 (@cursor_position_invariant ascii_lib.lib))
    [CallFilter 1 "" [VText "alpha"]; CallNext; CallNext; CallClose]
    (echo.mkCursor echo.all 0) eq_refl).
Defined.

(** ** Cursors: Column *)

(** Counterexample to C8 as stated: past the last row, and for an index
    beyond the declared columns, Column returns the NULL value and a nil
    error in each of the three cursors; it does not fail. *)
Lemma column_out_of_range_is_null :
  let t := csv.mkTable "people.csv" ["name"] [["Alice"]] 2 true 44 34 in
  (echo.Eof (echo.mkCursor echo.all 3) = true /\
   is_Err (echo.Column (echo.mkCursor echo.all 3) 0) = false /\
   echo.Column (echo.mkCursor echo.all 3) 0 = Ok VNull) /\
  (echo.Eof (echo.mkCursor echo.all 0) = false /\
   echo.Column (echo.mkCursor echo.all 0) 1 = Ok VNull) /\
  (csv.Eof (csv.mkCursor [["Alice"]] 1) = true /\
   csv.Column t (csv.mkCursor [["Alice"]] 1) 0 = Ok VNull /\
   csv.Column t (csv.mkCursor [["Alice"]] 0) 1 = Ok VNull) /\
  (dummy.Eof (dummy.mkCursor [dummy.mkRow 1 "alpha"] 1) = true /\
   dummy.Column (dummy.mkCursor [dummy.mkRow 1 "alpha"] 1) 0 = Ok VNull /\
   dummy.Column (dummy.mkCursor [dummy.mkRow 1 "alpha"] 0) 1 = Ok VNull).
Proof. cbv zeta. repeat split; reflexivity. Qed.

(** C8, amended.  For csvCursor, echoCursor and dummyCursor: when the
    cursor is not past Eof and the index is that of a declared column (0 for
    the echo and dummy tables, 0 <= index < len(cols) for the CSV table),
    Column returns the text of that column in the current row; when the
    cursor is past Eof, or the index is beyond the declared columns (any
    index but 0 for echo and dummy), Column returns NULL and no error. *)
Theorem column_value_or_null `{GoLib} :
  (forall (t : csv.csvTable) (c : csv.csvCursor) (col : Z),
     (csv.Eof c = true \/ len (csv.cols t) <= col ->
      csv.Column t c col = Ok VNull) /\
     (forall r s, csv.Eof c = false -> 0 <= csv.pos c ->
        0 <= col < len (csv.cols t) ->
        csv.crows c !! Z.to_nat (csv.pos c) = Some r ->
        r !! Z.to_nat col = Some s ->
        csv.Column t c col = Ok (VText s))) /\
  (forall (c : echo.echoCursor) (col : Z),
     (echo.Eof c = true \/ col <> 0 -> echo.Column c col = Ok VNull) /\
     (forall s, echo.Eof c = false -> 0 <= echo.pos c ->
        echo.rows c !! Z.to_nat (echo.pos c) = Some s ->
        echo.Column c 0 = Ok (VText s))) /\
  (forall (c : dummy.dummyCursor) (col : Z),
     (dummy.Eof c = true \/ col <> 0 -> dummy.Column c col = Ok VNull) /\
     (forall r, dummy.Eof c = false -> 0 <= dummy.pos c ->
        dummy.rows c !! Z.to_nat (dummy.pos c) = Some r ->
        dummy.Column c 0 = Ok (VText (dummy.val r)))).
Proof.
  split; [|split].
  - intros t c col. unfold csv.Column, csv.Eof. split.
    + intros [He|Hc].
      * rewrite He. reflexivity.
      * apply Z.leb_le in Hc. rewrite Hc, orb_true_r. reflexivity.
    + intros r s He Hp [Hc0 Hc1] Hr Hs. rewrite He.
      destruct (Z.leb_spec (len (csv.cols t)) col); [lia|]. cbn [orb].
      assert (index (csv.crows c) (csv.pos c) = Ok r) as ->
        by (apply index_Ok; split; assumption).
      cbn. assert (index r col = Ok s) as ->
        by (apply index_Ok; split; assumption).
      reflexivity.
  - intros c col. unfold echo.Column, echo.Eof. split.
    + intros [He|Hc].
      * apply Z.leb_le in He.
        destruct (Z.ltb_spec (echo.pos c) (len (echo.rows c))); [lia|].
        rewrite andb_false_r. reflexivity.
      * apply Z.eqb_neq in Hc. rewrite Hc. reflexivity.
    + intros s He Hp Hs. apply Z.leb_gt in He.
      destruct (Z.ltb_spec (echo.pos c) (len (echo.rows c))); [|lia].
      cbn. assert (index (echo.rows c) (echo.pos c) = Ok s) as ->
        by (apply index_Ok; split; assumption).
      reflexivity.
  - intros c col. unfold dummy.Column, dummy.Eof. split.
    + intros [He|Hc].
      * rewrite He, orb_true_r. reflexivity.
      * apply Z.eqb_neq in Hc. rewrite Hc.
        destruct ((dummy.pos c <? 0) || (len (dummy.rows c) <=? dummy.pos c));
          reflexivity.
    + intros r He Hp Hr. rewrite He.
      destruct (Z.ltb_spec (dummy.pos c) 0); [lia|]. cbn.
      assert (index (dummy.rows c) (dummy.pos c) = Ok r) as ->
        by (apply index_Ok; split; assumption).
      reflexivity.
Qed.

Lemma column_value_or_null_witness :
  csv.Column (csv.mkTable "people.csv" ["name"; "email"]
                [["Alice"; "alice@example.com"]] 2 true 44 34)
    (csv.mkCursor [["Alice"; "alice@example.com"]] 0) 1
  = Ok (VText "alice@example.com").
Proof.
  exact (proj2 (proj1 (@column_value_or_null ascii_lib.lib)
    (csv.mkTable "people.csv" ["name"; "email"]
       [["Alice"; "alice@example.com"]] 2 true 44 34)
    (csv.mkCursor [["Alice"; "alice@example.com"]] 0) 1)
    ["Alice"; "alice@example.com"] "alice@example.com"
    eq_refl ltac:(cbn; lia) ltac:(unfold len; cbn; lia) eq_refl eq_refl).
Defined.

(** ** Decimal text: Atoi after Itoa *)





(** ** The CSV provider: the Omit promise *)

Section CsvScan.
Context `{GoLib}.



Lemma filter_lookup {A} (f : A -> bool) (l : list A) (i : nat) (a : A) :
  List.filter f l !! i = Some a -> f a = true.
Proof.
  intros Hl. apply list_elem_of_lookup_2, list_elem_of_In, filter_In in Hl.
  apply Hl.
Qed.





End CsvScan.




(** ** Update *)

Section UpdateFacts.
Context `{GoLib}.

Lemma update_loop_absent (rs : list updater.updRow) (old : Z)
    (cols : list value) (new : option Z) :
  Forall (fun r => updater.id r <> old) rs ->
  updater.update_loop rs old cols new
  = Err ("row " +:+ Itoa old +:+ " not found").
Proof.
  induction 1 as [|r rs Hr _ IH]; [reflexivity|].
  cbn [updater.update_loop]. apply Z.eqb_neq in Hr. rewrite Hr, IH.
  reflexivity.
Qed.

Lemma update_loop_found (rs : list updater.updRow) (old : Z) (c0 : value)
    (cols : list value) (new : option Z) :
  forall (i : nat) (r : updater.updRow),
  rs !! i = Some r -> updater.id r = old ->
  (forall j r', (j < i)%nat -> rs !! j = Some r' -> updater.id r' <> old) ->
  updater.update_loop rs old (c0 :: cols) new
  = Ok (<[i := updater.mkRow
               match new with
               | Some n => if negb (n =? 0) && negb (n =? old) then n else old
               | None => old
               end (as_string c0)]> rs).
Proof.
  induction rs as [|r0 rs IH]; intros i r Hi Hid Hfirst; [discriminate|].
  destruct i as [|i].
  - injection Hi as ->. cbn [updater.update_loop].
    apply Z.eqb_eq in Hid as Hid'. rewrite Hid', Hid. reflexivity.
  - cbn [updater.update_loop].
    assert (updater.id r0 <> old) as Hr0
      by (apply (Hfirst 0%nat r0); [lia | reflexivity]).
    apply Z.eqb_neq in Hr0. rewrite Hr0.
    rewrite (IH i r Hi Hid); [reflexivity|].
    intros j r' Hj Hl. apply (Hfirst (S j) r'); [lia | exact Hl].
Qed.

Lemma wrap64_pred_inj (a b : Z) :
  MinInt64 <= a <= MaxInt64 -> MinInt64 <= b <= MaxInt64 ->
  wrap64 (a - 1) = wrap64 (b - 1) -> a = b.
Proof.
  unfold MinInt64, MaxInt64. intros Ha Hb.
  assert (forall x, - 2 ^ 63 <= x <= 2 ^ 63 - 1 ->
            wrap64 (x - 1) = if x =? - 2 ^ 63 then 2 ^ 63 - 1 else x - 1) as Hw.
  { intros x Hx. destruct (Z.eqb_spec x (- 2 ^ 63)) as [->|Hne].
    - reflexivity.
    - apply wrap64_id. unfold MinInt64, MaxInt64. lia. }
  rewrite (Hw a Ha), (Hw b Hb).
  destruct (Z.eqb_spec a (- 2 ^ 63)), (Z.eqb_spec b (- 2 ^ 63)); lia.
Qed.

Lemma in_range_lt (t : csv.csvTable) (idx : Z) :
  csv.in_range t idx = true ->
  0 <= idx /\ (Z.to_nat idx < length (csv.rows t))%nat.
Proof.
  unfold csv.in_range, len. intros Hr. apply negb_true_iff in Hr.
  apply orb_false_iff in Hr as [H0 H1].
  apply Z.ltb_ge in H0. apply Z.leb_gt in H1. lia.
Qed.

(** The table [Update] leaves: whatever [flush] returns, the rows are the
    ones computed before it. *)
Lemma csv_Update_rows (t : csv.csvTable) (fs : csv.FS) (old : Z)
    (vals : list value) (new : option Z) :
  csv.in_range t (wrap64 (old - 1)) = true ->
  csv.rows (csv.Update t fs old vals new).1.1
  = let rec := csv.valuesToStrings vals (len (csv.cols t)) in
    let rs := <[Z.to_nat (wrap64 (old - 1)) := rec]> (csv.rows t) in
    match new with
    | Some n =>
        if negb (n =? 0) && negb (n =? old) then
          if csv.in_range t (wrap64 (n - 1))
          then csv.swap_rows rs (Z.to_nat (wrap64 (old - 1)))
                 (Z.to_nat (wrap64 (n - 1)))
          else rs
        else rs
    | None => rs
    end.
Proof.
  intros Hin. unfold csv.Update. rewrite Hin. cbn [negb].
  match goal with |- context [csv.flush ?a ?b] => destruct (csv.flush a b) end.
  reflexivity.
Qed.

Lemma swap_rows_spec (rs : list (list string)) (i j : nat) (ri rj : list string) :
  i <> j -> rs !! i = Some ri -> rs !! j = Some rj ->
  csv.swap_rows rs i j !! i = Some rj /\
  csv.swap_rows rs i j !! j = Some ri /\
  (forall k, k <> i -> k <> j -> csv.swap_rows rs i j !! k = rs !! k) /\
  length (csv.swap_rows rs i j) = length rs.
Proof.
  intros Hij Hi Hj. unfold csv.swap_rows. rewrite Hi, Hj.
  pose proof (lookup_lt_Some _ _ _ Hi) as Hli.
  pose proof (lookup_lt_Some _ _ _ Hj) as Hlj.
  repeat split.
  - apply list_lookup_insert_eq. rewrite length_insert. exact Hli.
  - rewrite list_lookup_insert_ne by congruence.
    apply list_lookup_insert_eq. exact Hlj.
  - intros k Hki Hkj. rewrite !list_lookup_insert_ne by congruence.
    reflexivity.
  - rewrite !length_insert. reflexivity.
Qed.

End UpdateFacts.

(** Counterexample to C6 as stated, on the CSV table with the rows Alice
    (rowid 1) and Bob (rowid 2): Update(1, Alicia, newRowid = 2) exchanges
    the two rows, so Bob's rowid changes from 2 to 1 although Bob is not
    the located row; and Update(1, Alicia, newRowid = 9) leaves the updated
    row at rowid 1, no row being at rowid 9. *)
Lemma csv_update_moves_another_row :
  let t := csv.mkTable "people.csv" ["name"] [["Alice"]; ["Bob"]] 3 true 44 34 in
  let t2 := (csv.Update t ∅ 1 [VText "Alicia"] (Some 2)).1.1 in
  let t9 := (csv.Update t ∅ 1 [VText "Alicia"] (Some 9)).1.1 in
  (csv.Update t ∅ 1 [VText "Alicia"] (Some 2)).2 = Ok () /\
  csv.rows t2 = [["Bob"]; ["Alicia"]] /\
  ~ others_in_place (csv.rows t) (csv.rows t2) 0 /\
  (csv.Update t ∅ 1 [VText "Alicia"] (Some 9)).2 = Ok () /\
  csv.rows t9 = [["Alicia"]; ["Bob"]] /\
  csv.rows t9 !! 8%nat = None.
Proof.
  cbv zeta.
  assert (csv.rows (csv.Update
            (csv.mkTable "people.csv" ["name"] [["Alice"]; ["Bob"]] 3 true 44 34)
            ∅ 1 [VText "Alicia"] (Some 2)).1.1 = [["Bob"]; ["Alicia"]]) as E2
    by (rewrite csv_Update_rows; reflexivity).
  assert (csv.rows (csv.Update
            (csv.mkTable "people.csv" ["name"] [["Alice"]; ["Bob"]] 3 true 44 34)
            ∅ 1 [VText "Alicia"] (Some 9)).1.1 = [["Alicia"]; ["Bob"]]) as E9
    by (rewrite csv_Update_rows; reflexivity).
  rewrite E2, E9. repeat split; try reflexivity.
  intros Hclaim. specialize (Hclaim 1%nat ltac:(discriminate)).
  discriminate Hclaim.
Qed.

(** C6, amended.  updaterTableX.Update locates the first row whose id is
    oldRowid and fails with "row ... not found" if there is none; on
    success it replaces that row's value, and no rowid changes unless a
    non-nil, non-zero newRowid different from oldRowid is given, which
    becomes the id of the located row alone.  csvTable.Update locates the
    row at position oldRowid - 1 (a row's rowid is its position plus one)
    and fails with "rowid ... out of range" if there is none; otherwise it
    replaces that row's values and every row stays in place, unless a
    non-nil, non-zero newRowid different from oldRowid is given that is the
    rowid of a row of the table: then the updated row and that row exchange
    positions, all others staying in place.  A newRowid that is no rowid of
    the table moves nothing. *)
Theorem update_replaces_values `{GoLib} :
  (forall (t : updater.updaterTableX) (old : Z) (c0 : value)
          (cols : list value) (new : option Z),
     (Forall (fun r => updater.id r <> old) (updater.rows t) ->
      updater.Update t old (c0 :: cols) new
      = Err ("row " +:+ Itoa old +:+ " not found")) /\
     (forall (i : nat) (r : updater.updRow),
        updater.rows t !! i = Some r -> updater.id r = old ->
        (forall j r', (j < i)%nat -> updater.rows t !! j = Some r' ->
                      updater.id r' <> old) ->
        updater.Update t old (c0 :: cols) new
        = Ok (updater.mkTable
                (<[i := updater.mkRow
                          match new with
                          | Some n =>
                              if negb (n =? 0) && negb (n =? old) then n else old
                          | None => old
                          end (as_string c0)]> (updater.rows t))
                (updater.nextID t)))) /\
  (forall (t : csv.csvTable) (fs : csv.FS) (old : Z) (vals : list value)
          (new : option Z),
     let idx := wrap64 (old - 1) in
     let rec := csv.valuesToStrings vals (len (csv.cols t)) in
     let t' := (csv.Update t fs old vals new).1.1 in
     (csv.in_range t idx = false ->
      csv.Update t fs old vals new
      = (t, fs, Err ("csv: rowid " +:+ Itoa old +:+ " out of range"))) /\
     (csv.in_range t idx = true ->
      (new = None \/ new = Some 0 \/ new = Some old ->
       csv.rows t' = <[Z.to_nat idx := rec]> (csv.rows t)) /\
      (forall n, new = Some n -> csv.in_range t (wrap64 (n - 1)) = false ->
       csv.rows t' = <[Z.to_nat idx := rec]> (csv.rows t)) /\
      (forall n, new = Some n -> n <> 0 -> n <> old ->
       MinInt64 <= old <= MaxInt64 -> MinInt64 <= n <= MaxInt64 ->
       csv.in_range t (wrap64 (n - 1)) = true ->
       let nidx := wrap64 (n - 1) in
       csv.rows t' !! Z.to_nat nidx = Some rec /\
       csv.rows t' !! Z.to_nat idx = csv.rows t !! Z.to_nat nidx /\
       (forall k : nat, k <> Z.to_nat idx -> k <> Z.to_nat nidx ->
          csv.rows t' !! k = csv.rows t !! k) /\
       length (csv.rows t') = length (csv.rows t)))).
Proof.
  split.
  - intros t old c0 cols new. split.
    + intros Habs. unfold updater.Update.
      rewrite update_loop_absent by exact Habs. reflexivity.
    + intros i r Hi Hid Hfirst. unfold updater.Update.
      rewrite (update_loop_found _ _ _ _ _ i r Hi Hid Hfirst). reflexivity.
  - intros t fs old vals new idx rec t'. split.
    + intros Hout. unfold csv.Update. fold idx. rewrite Hout. reflexivity.
    + intros Hin. subst t'. rewrite csv_Update_rows by exact Hin.
      fold idx rec. cbv zeta. split; [|split].
      * intros [->|[->| ->]]; [reflexivity | reflexivity |].
        rewrite Z.eqb_refl, andb_false_r. reflexivity.
      * intros n -> Hout. rewrite Hout.
        destruct (negb (n =? 0) && negb (n =? old)); reflexivity.
      * intros n -> Hn0 Hno Hold Hnew Hnin.
        apply Z.eqb_neq in Hn0 as Hn0'. apply Z.eqb_neq in Hno as Hno'.
        rewrite Hn0', Hno', Hnin. cbn [negb andb].
        destruct (in_range_lt t idx Hin) as [Hi0 Hil].
        destruct (in_range_lt t _ Hnin) as [Hj0 Hjl].
        assert (Z.to_nat idx <> Z.to_nat (wrap64 (n - 1))) as Hne.
        { intros Heq. apply Hno. symmetry.
          apply wrap64_pred_inj; try assumption. subst idx. lia. }
        destruct (lookup_lt_is_Some_2 (csv.rows t) _ Hjl) as [rj Hrj].
        destruct (swap_rows_spec (<[Z.to_nat idx := rec]> (csv.rows t))
                    (Z.to_nat idx) (Z.to_nat (wrap64 (n - 1))) rec rj Hne)
          as (Hsi & Hsj & Hsk & Hsl).
        { apply list_lookup_insert_eq. exact Hil. }
        { rewrite list_lookup_insert_ne by exact Hne. exact Hrj. }
        repeat split.
        -- exact Hsj.
        -- rewrite Hsi, Hrj. reflexivity.
        -- intros k Hki Hkj. rewrite Hsk by assumption.
           apply list_lookup_insert_ne. congruence.
        -- rewrite Hsl. apply length_insert.
Qed.

Lemma update_replaces_values_witness :
  updater.Update
    (updater.mkTable [updater.mkRow 1 "Alice"; updater.mkRow 2 "Bob";
                      updater.mkRow 3 "Carol"] 4)
    2 [VText "Bobby"] None
  = Ok (updater.mkTable [updater.mkRow 1 "Alice"; updater.mkRow 2 "Bobby";
                         updater.mkRow 3 "Carol"] 4).
Proof.
  refine (proj2 (proj1 (@update_replaces_values ascii_lib.lib)
    (updater.mkTable [updater.mkRow 1 "Alice"; updater.mkRow 2 "Bob";
                      updater.mkRow 3 "Carol"] 4)
    2 (VText "Bobby") [] None) 1%nat (updater.mkRow 2 "Bob") eq_refl eq_refl _).
  intros j r' Hj Hl. destruct j as [|j]; [|lia].
  injection Hl as <-. discriminate.
Defined.

(** ** The dispatcher: plan tag and argument vector *)

Section BridgeFacts.
Context `{GoLib}.
Import bridge.

Lemma place_length slot (cs : list Constraint) :
  forall (rhs a : list value), length (place slot cs rhs a) = length a.
Proof.
  induction cs as [|c cs IH]; intros rhs a; [reflexivity|].
  destruct rhs as [|v rhs]; [reflexivity|]. cbn [place]. rewrite IH.
  destruct (slot c); [apply length_insert | reflexivity].
Qed.

(** A position no constraint is assigned to keeps what it held. *)
Lemma place_other slot (cs : list Constraint) (k : nat) :
  k ∉ omap slot cs ->
  forall (rhs a : list value), place slot cs rhs a !! k = a !! k.
Proof.
  induction cs as [|c cs IH]; intros Hk rhs a; [reflexivity|].
  destruct rhs as [|v rhs]; [reflexivity|]. cbn [place].
  cbn [omap list_omap] in Hk. destruct (slot c) as [k'|] eqn:Hs.
  - apply not_elem_of_cons in Hk as [Hne Hk].
    rewrite (IH Hk). apply list_lookup_insert_ne. congruence.
  - apply (IH Hk).
Qed.

(** The value of the constraint assigned slot [k] is at position [k]. *)
Lemma place_slot slot (cs : list Constraint) :
  forall (rhs a : list value) (i k : nat) (c : Constraint) (v : value),
  NoDup (omap slot cs) -> Forall (fun j => (j < length a)%nat) (omap slot cs) ->
  cs !! i = Some c -> rhs !! i = Some v -> slot c = Some k ->
  place slot cs rhs a !! k = Some v.
Proof.
  induction cs as [|c0 cs IH]; intros rhs a i k c v Hnd Hlt Hc Hv Hs;
    [discriminate|].
  destruct rhs as [|v0 rhs]; [destruct i; discriminate|].
  cbn [place]. cbn [omap list_omap] in Hnd, Hlt. destruct i as [|i].
  - injection Hc as ->. injection Hv as ->. rewrite Hs in *.
    apply NoDup_cons in Hnd as [Hk _]. apply Forall_cons in Hlt as [Hlt _].
    rewrite (place_other slot cs k Hk).
    apply list_lookup_insert_eq. exact Hlt.
  - destruct (slot c0) as [k0|].
    + apply NoDup_cons in Hnd as [_ Hnd]. apply Forall_cons in Hlt as [_ Hlt].
      apply (IH rhs _ i k c v Hnd); try assumption.
      rewrite length_insert. exact Hlt.
    + apply (IH rhs a i k c v Hnd Hlt); assumption.
Qed.

Lemma dense_spec (l : list nat) :
  dense l = true -> NoDup l /\ Forall (fun k => (k < length l)%nat) l.
Proof.
  unfold dense. intros Hd. apply andb_true_iff in Hd as [Hn Hf].
  split; [apply bool_decide_eq_true in Hn; exact Hn|].
  apply Forall_forall. intros k Hk. rewrite forallb_forall in Hf.
  apply Nat.ltb_lt, Hf, list_elem_of_In, Hk.
Qed.

Lemma check_ArgIndex_Ok (cs : list Constraint) :
  check_ArgIndex cs = Ok () -> dense (slots cs) = true.
Proof.
  unfold check_ArgIndex. destruct (dense (slots cs)); [reflexivity|discriminate].
Qed.

Lemma argv_slot (cs : list Constraint) (rhs : list value) (i k : nat)
    (c : Constraint) (v : value) :
  dense (slots cs) = true ->
  cs !! i = Some c -> rhs !! i = Some v -> slot_of c = Some k ->
  argv cs rhs !! k = Some v.
Proof.
  intros Hd Hc Hv Hs. destruct (dense_spec _ Hd) as [Hnd Hlt].
  unfold argv, argv_by. eapply place_slot; try eassumption.
  rewrite length_replicate. exact Hlt.
Qed.

Lemma argv_length (cs : list Constraint) (rhs : list value) :
  dense (slots cs) = true ->
  length (argv cs rhs) = size (list_to_set (slots cs) : gset nat).
Proof.
  intros Hd. destruct (dense_spec _ Hd) as [Hnd _].
  unfold argv, argv_by. rewrite place_length, length_replicate.
  symmetry. apply size_list_to_set. exact Hnd.
Qed.



End BridgeFacts.

(** C2.  For every table whose BestIndex returns with IdxNum = 2^31, the
    planning trampoline fails with a message that contains "IdxNum" and
    "int32" (what TestVtabIdxNumOverflowError checks); no plan is delivered
    and no Filter call is made. *)
Theorem oversized_IdxNum_rejected `{GoLib}
    (BestIndex : IndexInfo -> res IndexInfo) (info info' : IndexInfo) :
  BestIndex info = Ok info' -> IdxNum info' = 2 ^ 31 ->
  exists msg,
    bridge.xBestIndex BestIndex info = Err msg /\
    Contains msg "IdxNum" = true /\ Contains msg "int32" = true /\
    overflow.test_accepts msg = true /\
    forall rhs : list value, bridge.plan_and_filter BestIndex info rhs = Err msg.
Proof.
  intros Hb Hn. eexists. unfold bridge.plan_and_filter, bridge.xBestIndex.
  rewrite Hb, Hn. cbn. repeat split; reflexivity.
Qed.

Lemma oversized_IdxNum_rejected_witness :
  exists msg,
    bridge.xBestIndex overflow.BestIndex (bridge.draft [] [] 1) = Err msg /\
    Contains msg "IdxNum" = true /\ Contains msg "int32" = true /\
    overflow.test_accepts msg = true /\
    forall rhs : list value,
      bridge.plan_and_filter overflow.BestIndex (bridge.draft [] [] 1) rhs
      = Err msg.
Proof.
  exact (@oversized_IdxNum_rejected ascii_lib.lib overflow.BestIndex
           (bridge.draft [] [] 1)
           (set_IdxNum (MaxInt32 + 1) (bridge.draft [] [] 1))
           eq_refl eq_refl).
Defined.




(** C4.  When planning succeeds and the scan's Filter call is made, the
    call carries the IdxNum and IdxStr the provider's BestIndex wrote, and
    an argument vector whose length is the number of distinct ArgIndex
    slots assigned, with the comparison value of the constraint assigned
    slot k at position k. *)
Theorem filter_receives_plan `{GoLib}
    (BestIndex : IndexInfo -> res IndexInfo) (info : IndexInfo)
    (rhs : list value) (n : Z) (s : string) (vals : list value) :
  bridge.plan_and_filter BestIndex info rhs = Ok (CallFilter n s vals) ->
  exists info',
    BestIndex info = Ok info' /\
    n = IdxNum info' /\ s = IdxStr info' /\
    length vals
      = size (list_to_set (bridge.slots (Constraints info')) : gset nat) /\
    (forall (i k : nat) (c : Constraint) (v : value),
       Constraints info' !! i = Some c -> rhs !! i = Some v ->
       0 <= ArgIndex c -> k = Z.to_nat (ArgIndex c) ->
       vals !! k = Some v).
Proof.
  unfold bridge.plan_and_filter, bridge.xBestIndex. intros Hp.
  destruct (BestIndex info) as [info'| |] eqn:Hb; [|discriminate..].
  exists info'. split; [reflexivity|].
  unfold bridge.check_IdxNum in Hp.
  destruct (in_int32 (IdxNum info')); [|discriminate]. cbn in Hp.
  destruct (bridge.check_ArgIndex (Constraints info')) as [[]| |] eqn:Hc;
    [|discriminate..].
  apply check_ArgIndex_Ok in Hc. cbn in Hp. unfold bridge.xFilter in Hp.
  cbn in Hp. injection Hp as <- <- <-.
  repeat split.
  - apply argv_length, Hc.
  - intros i k c v Hi Hv Hpos ->. eapply argv_slot; try eassumption.
    unfold bridge.slot_of, bridge.requested.
    destruct (Z.leb_spec 0 (ArgIndex c)); [reflexivity | lia].
Qed.

Lemma filter_receives_plan_witness :
  exists info',
    argidx.BestIndex (bridge.draft [bridge.mkCandidate 0 OpEQ true;
                                    bridge.mkCandidate 1 OpEQ true] [] 3)
      = Ok info' /\
    0 = IdxNum info' /\ "" = IdxStr info' /\
    length ([VInt 10; VInt 20] : list value)
      = size (list_to_set (bridge.slots (Constraints info')) : gset nat) /\
    (forall (i k : nat) (c : Constraint) (v : value),
       Constraints info' !! i = Some c ->
       ([VInt 10; VInt 20] : list value) !! i = Some v ->
       0 <= ArgIndex c -> k = Z.to_nat (ArgIndex c) ->
       ([VInt 10; VInt 20] : list value) !! k = Some v).
Proof.
  exact (@filter_receives_plan ascii_lib.lib argidx.BestIndex
    (bridge.draft [bridge.mkCandidate 0 OpEQ true;
                   bridge.mkCandidate 1 OpEQ true] [] 3)
    [VInt 10; VInt 20] 0 "" [VInt 10; VInt 20] eq_refl).
Defined.

(** ** The CSV table: statements and reattachment *)

Section CsvReload.
Context `{GoLib}.

Lemma fit_length (n : nat) (r : list string) : length (csv.fit n r) = n.
Proof.
  unfold csv.fit. rewrite length_take, length_app, length_replicate. lia.
Qed.



Lemma map_fit_width (n : nat) (rs : list (list string)) :
  Forall (fun r => length r = n) (map (csv.fit n) rs).
Proof.
  apply Forall_forall. intros r Hr. apply list_elem_of_In, in_map_iff in Hr.
  destruct Hr as (x & <- & _). apply fit_length.
Qed.

Lemma default_cols_length (n : nat) : length (csv.default_cols n) = n.
Proof. unfold csv.default_cols. rewrite length_map, length_seq. reflexivity. Qed.

Lemma valuesToStrings_length (vals : list value) (n : Z) :
  length (csv.valuesToStrings vals n) = Z.to_nat n.
Proof.
  unfold csv.valuesToStrings. generalize (Z.to_nat n) as k. intros k.
  revert vals. induction k as [|k IH]; intros vals; [reflexivity|].
  destruct vals as [|v vs]; cbn [csv.valuesToStrings_nat length];
    rewrite IH; reflexivity.
Qed.

Lemma rec_width (t : csv.csvTable) (vals : list value) :
  length (csv.valuesToStrings vals (len (csv.cols t))) = length (csv.cols t).
Proof. rewrite valuesToStrings_length. unfold len. lia. Qed.

(** What [loadCSV] returns. *)
Lemma loadCSV_Ok (fs : csv.FS) (file : string) (delim : Z) (header : bool)
    (quote : Z) (t : csv.csvTable) :
  csv.loadCSV fs file delim header quote = Ok t ->
  csv.file t = file /\ csv.delimiter t = delim /\ csv.header t = header /\
  csv.quote t = quote /\
  csv.nextID t = wrap64 (len (csv.rows t) + 1) /\
  Forall (fun r => length r = length (csv.cols t)) (csv.rows t) /\
  (header = false -> csv.cols t = csv.default_cols (length (csv.cols t))).
Proof.
  unfold csv.loadCSV. destruct (csv.ReadFile fs file) as [data| |];
    cbn; [|discriminate..].
  destruct header.
  - destruct (csv_Read _ _) as [[hdr rest]| |]; [|discriminate..].
    destruct (csv_ReadAll _ rest) as [rs| |]; cbn; [|discriminate..].
    intros [= <-]. cbn. repeat split; try reflexivity; try discriminate.
    apply map_fit_width.
  - destruct (csv_ReadAll _ _) as [all| |]; cbn; [|discriminate..].
    destruct all as [|r0 all]; [discriminate|].
    intros [= <-]. cbn [csv.file csv.delimiter csv.header csv.quote
      csv.nextID csv.rows csv.cols].
    rewrite default_cols_length. repeat split; try reflexivity.
    apply (map_fit_width (length r0) (r0 :: all)).
Qed.

Lemma Create_inv (ctx : csv.Context) (fs : csv.FS) (args : list string)
    (t : csv.csvTable) :
  csv.Create ctx fs args = Ok t ->
  csv_inv ctx args t /\ csv.nextID t = wrap64 (len (csv.rows t) + 1).
Proof.
  unfold csv.Create. destruct (Z.ltb_spec (len args) 3); [discriminate|].
  destruct (String.eqb_spec (csv.a_file (csv.parseCSVArgs (drop 3 args))) "")
    as [|Hfile]; [discriminate|].
  destruct (csv.loadCSV _ _ _ _ _) as [t0| |] eqn:Hload; cbn; [|discriminate..].
  destruct (index args 2) as [name| |] eqn:Hname; cbn; [|discriminate..].
  destruct (csv.ctx_Declare ctx _) as [[]| |] eqn:Hdecl; cbn; [|discriminate..].
  intros [= <-].
  destruct (loadCSV_Ok _ _ _ _ _ _ Hload) as (Hf & Hd & Hh & Hq & Hn & Hw & Hc).
  split; [|exact Hn].
  constructor;
    [ exact Hw | assumption | exact Hf | congruence | exact Hd | exact Hh
    | exact Hq | intros Hhf; apply Hc; congruence
    | exists name; split; [exact Hname | exact Hdecl] ].
Qed.

(** The statements touch the rows and the counter only. *)
Lemma exec_fields (s : csv.stmt) (t : csv.csvTable) (fs : csv.FS) :
  let t' := (csv.exec s (t, fs)).1 in
  csv.file t' = csv.file t /\ csv.cols t' = csv.cols t /\
  csv.header t' = csv.header t /\ csv.delimiter t' = csv.delimiter t /\
  csv.quote t' = csv.quote t.
Proof.
  destruct s as [vals rowid|old vals new|old]; cbn [csv.exec fst snd].
  - unfold csv.Insert.
    match goal with |- context [csv.flush ?a ?b] => destruct (csv.flush a b) end.
    cbn. repeat split; reflexivity.
  - unfold csv.Update. destruct (negb _); [cbn; repeat split; reflexivity|].
    match goal with |- context [csv.flush ?a ?b] => destruct (csv.flush a b) end.
    cbn. repeat split; reflexivity.
  - unfold csv.Delete. destruct (negb _); [cbn; repeat split; reflexivity|].
    match goal with |- context [csv.flush ?a ?b] => destruct (csv.flush a b) end.
    cbn. repeat split; reflexivity.
Qed.

(** The rows and the counter after one statement. *)
Lemma exec_rows (s : csv.stmt) (t : csv.csvTable) (fs : csv.FS) :
  let t' := (csv.exec s (t, fs)).1 in
  match s with
  | csv.SInsert vals _ =>
      csv.rows t'
      = (csv.rows t ++ [csv.valuesToStrings vals (len (csv.cols t))])%list /\
      csv.nextID t' = wrap64 (csv.nextID t + 1)
  | csv.SUpdate old vals new =>
      csv.nextID t' = csv.nextID t /\ length (csv.rows t') = length (csv.rows t) /\
      (Forall (fun r => length r = length (csv.cols t)) (csv.rows t) ->
       Forall (fun r => length r = length (csv.cols t)) (csv.rows t'))
  | csv.SDelete old =>
      csv.nextID t' = csv.nextID t /\
      if csv.in_range t (wrap64 (old - 1))
      then csv.rows t'
           = (take (Z.to_nat (wrap64 (old - 1))) (csv.rows t)
              ++ drop (S (Z.to_nat (wrap64 (old - 1)))) (csv.rows t))%list
      else csv.rows t' = csv.rows t
  end.
Proof.
  destruct s as [vals rowid|old vals new|old]; cbn [csv.exec fst snd].
  - unfold csv.Insert.
    match goal with |- context [csv.flush ?a ?b] => destruct (csv.flush a b) end.
    cbn. split; reflexivity.
  - destruct (csv.in_range t (wrap64 (old - 1))) eqn:Hin.
    2:{ unfold csv.Update. rewrite Hin. cbn. repeat split; auto. }
    pose proof (csv_Update_rows t fs old vals new Hin) as Hrows.
    cbv zeta in Hrows.
    assert (csv.nextID (csv.Update t fs old vals new).1.1 = csv.nextID t) as Hn.
    { unfold csv.Update. rewrite Hin. cbn [negb].
      match goal with |- context [csv.flush ?a ?b] => destruct (csv.flush a b) end.
      reflexivity. }
    split; [exact Hn|]. rewrite Hrows.
    set (rec := csv.valuesToStrings vals (len (csv.cols t))).
    set (rs := <[Z.to_nat (wrap64 (old - 1)) := rec]> (csv.rows t)).
    assert (length rs = length (csv.rows t)) as Hlen by apply length_insert.
    assert (forall i j, length (csv.swap_rows rs i j) = length rs) as Hswl.
    { intros i j. unfold csv.swap_rows.
      destruct (rs !! i), (rs !! j); rewrite ?length_insert; reflexivity. }
    assert (forall P : list string -> Prop, forall i j,
              Forall P rs -> Forall P (csv.swap_rows rs i j)) as Hswf.
    { intros P i j HP. unfold csv.swap_rows.
      destruct (rs !! i) as [ri|] eqn:Hi; [|exact HP].
      destruct (rs !! j) as [rj|] eqn:Hj; [|exact HP].
      apply Forall_insert; [apply Forall_insert; [exact HP|]|].
      - eapply Forall_lookup_1; eassumption.
      - eapply Forall_lookup_1; eassumption. }
    split.
    + destruct new as [n|]; [|exact Hlen].
      destruct (negb (n =? 0) && negb (n =? old)); [|exact Hlen].
      destruct (csv.in_range t (wrap64 (n - 1))); [|exact Hlen].
      rewrite Hswl. exact Hlen.
    + intros Hw.
      assert (Forall (fun r => length r = length (csv.cols t)) rs) as Hrs.
      { apply Forall_insert; [exact Hw | apply rec_width]. }
      destruct new as [n|]; [|exact Hrs].
      destruct (negb (n =? 0) && negb (n =? old)); [|exact Hrs].
      destruct (csv.in_range t (wrap64 (n - 1))); [|exact Hrs].
      apply Hswf, Hrs.
  - unfold csv.Delete. destruct (csv.in_range t (wrap64 (old - 1))); cbn [negb].
    + match goal with |- context [csv.flush ?a ?b] => destruct (csv.flush a b) end.
      cbn. split; reflexivity.
    + cbn. split; reflexivity.
Qed.

End CsvReload.

Section CsvReattach.
Context `{GoLib}.


Lemma run_cons {S A} (step : A -> S -> S) (a : A) (l : list A) (s : S) :
  run_calls step (a :: l) s = run_calls step l (step a s).
Proof. reflexivity. Qed.


(** The counter runs ahead of the number of rows by the number of rows
    deleted. *)
Lemma run_counter (ss : list csv.stmt) :
  forall (t : csv.csvTable) (fs : csv.FS) (d : Z),
  csv.nextID t = len (csv.rows t) + 1 + d -> 0 <= d ->
  csv.nextID t + len ss <= MaxInt64 ->
  let t' := (run_calls csv.exec ss (t, fs)).1 in
  csv.nextID t' = len (csv.rows t') + 1 + d + csv.removed ss (t, fs) /\
  0 <= csv.removed ss (t, fs) /\
  csv.nextID t' <= csv.nextID t + len ss.
Proof.
  induction ss as [|s ss IH]; intros t fs d Hn Hd Hb; cbv zeta.
  - cbn. unfold len in *. cbn in *. lia.
  - rewrite run_cons. rewrite len_cons in Hb.
    pose proof (len_nonneg ss) as Hss. pose proof (len_nonneg (csv.rows t)) as Hr.
    pose proof (exec_rows s t fs) as Hrows. cbv zeta in Hrows.
    cbn [csv.removed].
    destruct (csv.exec s (t, fs)) as [t1 fs1] eqn:He. cbn [fst] in Hrows.
    rewrite len_cons.
    destruct s as [vals rowid|old vals new|old].
    + destruct Hrows as [Hrs Hnx].
      rewrite wrap64_id in Hnx by (unfold MinInt64, MaxInt64 in *; lia).
      assert (len (csv.rows t1) = len (csv.rows t) + 1) as Hl
        by (rewrite Hrs, len_app; reflexivity).
      destruct (IH t1 fs1 d) as (I1 & I2 & I3); [lia | lia | lia |].
      cbv zeta in I1, I3. lia.
    + destruct Hrows as (Hnx & Hl & _).
      assert (len (csv.rows t1) = len (csv.rows t)) as Hl'
        by (unfold len; rewrite Hl; reflexivity).
      destruct (IH t1 fs1 d) as (I1 & I2 & I3); [lia | lia | lia |].
      cbv zeta in I1, I3. lia.
    + destruct Hrows as [Hnx Hrs]. cbn [fst].
      destruct (csv.in_range t (wrap64 (old - 1))) eqn:Hin.
      * destruct (in_range_lt t _ Hin) as [Hi0 Hil].
        assert (len (csv.rows t1) = len (csv.rows t) - 1) as Hl.
        { unfold len. rewrite Hrs, length_app, length_take, length_drop. lia. }
        destruct (IH t1 fs1 (d + 1)) as (I1 & I2 & I3); [lia | lia | lia |].
        cbv zeta in I1, I3. lia.
      * assert (len (csv.rows t1) = len (csv.rows t)) as Hl
          by (rewrite Hrs; reflexivity).
        destruct (IH t1 fs1 d) as (I1 & I2 & I3); [lia | lia | lia |].
        cbv zeta in I1, I3. lia.
Qed.



End CsvReattach.




(** * Further properties of the providers *)

(** ** String facts *)

Lemma str_length_app (s1 s2 : string) :
  String.length (s1 +:+ s2) = (String.length s1 + String.length s2)%nat.
Proof.
  induction s1 as [|a s1 IH]; [reflexivity|].
  simpl. f_equal. exact IH.
Qed.

(** ** The CSV table: Delete, Insert, flush *)

(** csvTable.Delete: a rowid that is no position of the table gives the
    out-of-range error and changes neither the table nor the files.
    Otherwise the row at position oldRowid - 1 is taken out: the rows
    before it stay where they are, every row after it moves down by one
    position (its rowid becomes one less), and the counter and the columns
    are untouched. *)
Theorem csv_Delete_renumbers `{GoLib} (t : csv.csvTable) (fs : csv.FS)
    (old : Z) :
  let idx := wrap64 (old - 1) in
  let t' := (csv.Delete t fs old).1.1 in
  (csv.in_range t idx = false ->
   csv.Delete t fs old
   = (t, fs, Err ("csv: rowid " +:+ Itoa old +:+ " out of range"))) /\
  (csv.in_range t idx = true ->
   csv.nextID t' = csv.nextID t /\ csv.cols t' = csv.cols t /\
   S (length (csv.rows t')) = length (csv.rows t) /\
   (forall j : nat, (j < Z.to_nat idx)%nat ->
      csv.rows t' !! j = csv.rows t !! j) /\
   (forall j : nat, (Z.to_nat idx <= j)%nat ->
      csv.rows t' !! j = csv.rows t !! S j)).
Proof.
  cbv zeta. split.
  - intros Hout. unfold csv.Delete. rewrite Hout. reflexivity.
  - intros Hin.
    pose proof (exec_rows (csv.SDelete old) t fs) as Hr.
    pose proof (exec_fields (csv.SDelete old) t fs) as (_ & Hc & _).
    cbv zeta in Hr, Hc. cbn [csv.exec fst snd] in Hr, Hc.
    rewrite Hin in Hr. destruct Hr as [Hn Hrows].
    destruct (in_range_lt t _ Hin) as [Hi0 Hil].
    split; [exact Hn|]. split; [exact Hc|]. rewrite Hrows.
    split; [|split].
    + rewrite length_app, length_take, length_drop. lia.
    + intros j Hj. rewrite lookup_app_l by (rewrite length_take; lia).
      apply lookup_take_lt, Hj.
    + intros j Hj. rewrite lookup_app_r by (rewrite length_take; lia).
      rewrite lookup_drop, length_take. f_equal. lia.
Qed.

Lemma csv_Delete_renumbers_witness :
  csv.rows (csv.Delete
    (csv.mkTable "people.csv" ["name"] [["Alice"]; ["Bob"]; ["Carol"]] 4
       true 44 34) ∅ 2).1.1 !! 1%nat
  = Some ["Carol"].
Proof.
  exact (proj2 (proj2 (proj2 (proj2 (proj2
    (@csv_Delete_renumbers ascii_lib.lib
       (csv.mkTable "people.csv" ["name"] [["Alice"]; ["Bob"]; ["Carol"]] 4
          true 44 34) ∅ 2) eq_refl)))) 1%nat ltac:(vm_compute; constructor)).
Defined.

(** csvTable.Insert followed by Delete of the position the new row took:
    the rows are as before the insert.  The counter is not: it has moved
    on by one. *)
Theorem csv_Insert_then_Delete `{GoLib} (t : csv.csvTable) (fs : csv.FS)
    (vals : list value) (rowid : Z) :
  len (csv.rows t) < MaxInt64 ->
  let i := csv.Insert t fs vals rowid in
  let d := csv.Delete i.1.1.1 i.1.1.2 (len (csv.rows t) + 1) in
  csv.rows d.1.1 = csv.rows t /\
  csv.nextID d.1.1 = wrap64 (csv.nextID t + 1).
Proof.
  intros Hlen. cbv zeta.
  pose proof (exec_rows (csv.SInsert vals rowid) t fs) as Hi.
  cbv zeta in Hi. cbn [csv.exec fst snd] in Hi. destruct Hi as [Hrows Hn].
  set (st := (csv.Insert t fs vals rowid).1.1) in *.
  pose proof (exec_rows (csv.SDelete (len (csv.rows t) + 1)) st.1 st.2) as Hd.
  cbv zeta in Hd. cbn [csv.exec fst snd] in Hd.
  pose proof (len_nonneg (csv.rows t)) as H0.
  assert (wrap64 (len (csv.rows t) + 1 - 1) = len (csv.rows t)) as Hw.
  { rewrite wrap64_id; unfold MinInt64, MaxInt64 in *; lia. }
  rewrite Hw in Hd.
  assert (csv.in_range st.1 (len (csv.rows t)) = true) as Hin.
  { unfold csv.in_range. rewrite Hrows, len_app. unfold len at 3. cbn [length].
    destruct (Z.ltb_spec (len (csv.rows t)) 0); [lia|].
    destruct (Z.leb_spec (len (csv.rows t) + Z.of_nat 1) (len (csv.rows t)));
      [lia | reflexivity]. }
  rewrite Hin in Hd. destruct Hd as [Hdn Hdr].
  split.
  - rewrite Hdr, Hrows. unfold len. rewrite Nat2Z.id.
    rewrite take_app_length.
    rewrite drop_ge by (rewrite length_app; cbn; lia). apply app_nil_r.
  - rewrite Hdn. exact Hn.
Qed.

Lemma csv_Insert_then_Delete_witness :
  let t := csv.mkTable "people.csv" ["name"] [["Alice"]] 2 true 44 34 in
  let i := csv.Insert t ∅ [VText "Bob"] 0 in
  csv.rows (csv.Delete i.1.1.1 i.1.1.2 2).1.1 = [["Alice"]].
Proof.
  exact (proj1 (@csv_Insert_then_Delete ascii_lib.lib
    (csv.mkTable "people.csv" ["name"] [["Alice"]] 2 true 44 34) ∅
    [VText "Bob"] 0 eq_refl)).
Defined.



(** The Updater methods of the CSV table change the table in memory before
    they flush: when the flush fails, Insert has still appended its row and
    moved the counter, while the files are as before the call; when it
    succeeds, the table's file holds the bytes of the new state. *)
Theorem csv_Insert_memory_and_file `{GoLib} (t : csv.csvTable) (fs : csv.FS)
    (vals : list value) (rowid : Z) :
  let i := csv.Insert t fs vals rowid in
  let t' := i.1.1.1 in
  csv.rows t'
    = (csv.rows t ++ [csv.valuesToStrings vals (len (csv.cols t))])%list /\
  csv.nextID t' = wrap64 (csv.nextID t + 1) /\
  i.1.2 = (if rowid =? 0 then csv.nextID t else rowid) /\
  (i.2 <> Ok () -> i.1.1.2 = fs) /\
  (i.2 = Ok () ->
   exists out, csv.flush_bytes t' = Ok out /\
               i.1.1.2 !! csv.file t = Some out).
Proof.
  cbv zeta. unfold csv.Insert.
  set (t1 := csv.set_nextID _ _).
  unfold csv.flush. destruct (csv.flush_bytes t1) as [out| |] eqn:Hb;
    cbn [fst snd].
  - repeat split; try reflexivity; [congruence|].
    intros _. exists out. split; [exact Hb|]. apply lookup_insert_eq.
  - repeat split; try reflexivity. discriminate.
  - repeat split; try reflexivity. discriminate.
Qed.

Lemma csv_Insert_memory_and_file_witness :
  let t := csv.mkTable "people.csv" ["name"] [["Alice"]] 2 true 13 34 in
  let i := csv.Insert t ∅ [VText "Bob"] 0 in
  i.1.1.2 = (∅ : csv.FS).
Proof.
  exact (proj1 (proj2 (proj2 (proj2 (@csv_Insert_memory_and_file ascii_lib.lib
    (csv.mkTable "people.csv" ["name"] [["Alice"]] 2 true 13 34) ∅
    [VText "Bob"] 0)))) ltac:(vm_compute; discriminate)).
Defined.

(** ** The CSV table: values, arguments, loading *)

(** valuesToStrings: the record has exactly n fields; field i is the text
    of vals[i] when there is such a value and it is not nil, and the empty
    string otherwise (values beyond n are dropped). *)
Theorem valuesToStrings_pads_and_cuts `{GoLib} (vals : list value) (n : Z) :
  length (csv.valuesToStrings vals n) = Z.to_nat n /\
  forall i : nat, (i < Z.to_nat n)%nat ->
    csv.valuesToStrings vals n !! i
    = Some match vals !! i with
           | Some VNull => ""
           | Some v => Sprint FormatFloat v
           | None => ""
           end.
Proof.
  split; [apply valuesToStrings_length|].
  unfold csv.valuesToStrings. generalize (Z.to_nat n) as k. intros k.
  revert vals. induction k as [|k IH]; intros vals i Hi; [lia|].
  destruct vals as [|v vs]; cbn [csv.valuesToStrings_nat].
  - destruct i as [|i]; [reflexivity|].
    etransitivity; [apply (IH [] i); lia | reflexivity].
  - destruct i as [|i].
    + cbn. destruct v; reflexivity.
    + etransitivity; [apply (IH vs i); lia | reflexivity].
Qed.

Lemma valuesToStrings_pads_and_cuts_witness :
  csv.valuesToStrings [VText "Ann"; VNull; VInt 7] 2 !! 1%nat = Some "".
Proof.
  exact (proj2 (@valuesToStrings_pads_and_cuts ascii_lib.lib
    [VText "Ann"; VNull; VInt 7] 2) 1%nat ltac:(cbn; lia)).
Defined.

(** loadCSV: a missing file is an error; a table that is returned has
    every row at exactly len(cols) fields, the counter at len(rows) + 1,
    the given configuration, and, for a file without header, the column
    names c1 ... cn. *)
Theorem loadCSV_shape `{GoLib} (fs : csv.FS) (file : string) (delim : Z)
    (header : bool) (quote : Z) :
  (fs !! file = None ->
   csv.loadCSV fs file delim header quote
   = Err ("open " +:+ file +:+ ": no such file or directory")) /\
  (forall t, csv.loadCSV fs file delim header quote = Ok t ->
     Forall (fun r => length r = length (csv.cols t)) (csv.rows t) /\
     csv.nextID t = wrap64 (len (csv.rows t) + 1) /\
     csv.file t = file /\ csv.delimiter t = delim /\
     csv.header t = header /\ csv.quote t = quote /\
     (header = false ->
      csv.rows t <> [] /\
      csv.cols t = csv.default_cols (length (csv.cols t)))).
Proof.
  split.
  - intros Hnone. unfold csv.loadCSV, csv.ReadFile. rewrite Hnone. reflexivity.
  - intros t Hload.
    destruct (loadCSV_Ok _ _ _ _ _ _ Hload) as (Hf & Hd & Hh & Hq & Hn & Hw & Hc).
    split; [exact Hw|]. split; [exact Hn|]. split; [exact Hf|].
    split; [exact Hd|]. split; [exact Hh|]. split; [exact Hq|].
    intros ->. split; [|apply Hc; reflexivity].
    unfold csv.loadCSV in Hload.
    destruct (csv.ReadFile fs file) as [data| |]; cbn in Hload; [|discriminate..].
    destruct (csv_ReadAll _ _) as [all| |]; cbn in Hload; [|discriminate..].
    destruct all as [|r0 all]; [discriminate|].
    injection Hload as <-. cbn. discriminate.
Qed.

Lemma loadCSV_shape_witness :
  csv.loadCSV ∅ "people.csv" 44 true 34
  = Err "open people.csv: no such file or directory".
Proof.
  exact (proj1 (@loadCSV_shape ascii_lib.lib ∅ "people.csv" 44 true 34)
           eq_refl).
Defined.

Section CsvArgs.
Context `{GoLib}.

Lemma parse_arg_other_key (acc : csv.csvArgs) (a : string) :
  (csv.SplitN_eq a).1 <> "filename" ->
  csv.a_file (csv.parse_arg acc a) = csv.a_file acc.
Proof.
  intros Hk. unfold csv.parse_arg. destruct (csv.SplitN_eq a) as [k kv1].
  cbn [fst] in Hk. apply String.eqb_neq in Hk. rewrite Hk.
  repeat match goal with
         | |- context [if ?b then _ else _] => destruct b
         end; reflexivity.
Qed.

Lemma fold_parse_no_filename (args : list string) :
  forall acc,
  Forall (fun a => (csv.SplitN_eq a).1 <> "filename") args ->
  csv.a_file (fold_left csv.parse_arg args acc) = csv.a_file acc.
Proof.
  induction args as [|a args IH]; intros acc Hall; [reflexivity|].
  apply Forall_cons in Hall as [Ha Hall]. cbn [fold_left].
  rewrite (IH _ Hall). apply parse_arg_other_key, Ha.
Qed.

Lemma SplitN_eq_filename (v : string) :
  csv.SplitN_eq ("filename=" +:+ v) = ("filename", Some v).
Proof. reflexivity. Qed.

Lemma get_app_length (s r : string) (q : ascii) :
  String.get (String.length s) (s +:+ String q r) = Some q.
Proof. induction s as [|a s IH]; [reflexivity | exact IH]. Qed.

Lemma substring_app_prefix (s r : string) :
  String.substring 0 (String.length s) (s +:+ r) = s.
Proof.
  induction s as [|a s IH]; [destruct r; reflexivity|].
  simpl. f_equal. exact IH.
Qed.

End CsvArgs.

(** csvModule.Create: with fewer than three declaration arguments the call
    panics (args[3:]); with three or more, none of which after the third
    has the key "filename", it fails with "csv: require filename=... arg"
    before any file is read. *)
Theorem csv_Create_requires_filename `{GoLib} (ctx : csv.Context)
    (fs : csv.FS) (args : list string) :
  (len args < 3 -> csv.Create ctx fs args = Panic) /\
  (3 <= len args ->
   Forall (fun a => (csv.SplitN_eq a).1 <> "filename") (drop 3 args) ->
   csv.Create ctx fs args = Err "csv: require filename=... arg").
Proof.
  unfold csv.Create. split.
  - intros Hlt. destruct (Z.ltb_spec (len args) 3); [reflexivity | lia].
  - intros Hge Hall. destruct (Z.ltb_spec (len args) 3); [lia|].
    unfold csv.parseCSVArgs. rewrite (fold_parse_no_filename _ _ Hall).
    reflexivity.
Qed.

Lemma csv_Create_requires_filename_witness :
  csv.Create (csv.Build_Context (fun _ => Ok ())) ∅
    ["csv"; "main"; "people"; "delimiter=;"; "header=no"]
  = Err "csv: require filename=... arg".
Proof.
  refine (proj2 (@csv_Create_requires_filename ascii_lib.lib
    (csv.Build_Context (fun _ => Ok ())) ∅
    ["csv"; "main"; "people"; "delimiter=;"; "header=no"])
    ltac:(vm_compute; discriminate) _).
  repeat constructor; vm_compute; discriminate.
Defined.

(** parseCSVArgs: the last filename token decides the file, whatever came
    before, and leaves the other settings alone; its value has one pair of
    enclosing quotes removed. *)
Theorem parseCSVArgs_last_filename `{GoLib} (args : list string) (v : string) :
  let a := csv.parseCSVArgs (args ++ ["filename=" +:+ v]) in
  let b := csv.parseCSVArgs args in
  csv.a_file a = csv.unquote v /\
  csv.a_delim a = csv.a_delim b /\ csv.a_header a = csv.a_header b /\
  csv.a_quote a = csv.a_quote b.
Proof.
  cbv zeta. unfold csv.parseCSVArgs. rewrite fold_left_app.
  cbn [fold_left]. unfold csv.parse_arg at 1 2 3 4.
  rewrite SplitN_eq_filename. cbn. repeat split; reflexivity.
Qed.

(** unquote: a value enclosed in a pair of double quotes or a pair of
    single quotes loses exactly that pair; a value shorter than two bytes
    is returned as it is. *)
Theorem unquote_strips_one_pair (s : string) (q : ascii) :
  (q = csv.dquote \/ q = "'"%char ->
   csv.unquote (String q (s +:+ String q "")) = s) /\
  ((String.length s < 2)%nat -> csv.unquote s = s).
Proof.
  split.
  - intros Hq. unfold csv.unquote.
    assert (String.length (String q (s +:+ String q ""))
            = S (S (String.length s))) as ->.
    { cbn [String.length]. rewrite str_length_app. cbn. lia. }
    cbn [Nat.leb Nat.sub String.get].
    rewrite Nat.sub_0_r, get_app_length.
    assert (String.substring 1 (String.length s) (String q (s +:+ String q ""))
            = s) as ->.
    { cbn [String.substring]. apply substring_app_prefix. }
    destruct Hq as [-> | ->]; reflexivity.
  - intros Hlen. unfold csv.unquote.
    destruct (Nat.leb_spec 2 (String.length s)); [lia | reflexivity].
Qed.

Lemma unquote_strips_one_pair_witness :
  csv.unquote "'data file.csv'" = "data file.csv".
Proof.
  exact (proj1 (unquote_strips_one_pair "data file.csv" "'"%char)
           (or_intror eq_refl)).
Defined.

(** ** The CSV table: planning and scanning *)

Section CsvPlan.
Context `{GoLib}.

Lemma best_loop_none (t : csv.csvTable) (cs cs' : list Constraint) :
  csv.best_loop t cs = (cs', None) ->
  cs' = cs /\ Forall (fun c => csv.exploitable t c = false) cs.
Proof.
  revert cs'. induction cs as [|c cs IH]; intros cs' Hb.
  - injection Hb as <-. split; [reflexivity | constructor].
  - cbn [csv.best_loop] in Hb. destruct (csv.exploitable t c) eqn:He;
      [discriminate|].
    destruct (csv.best_loop t cs) as [rest found] eqn:Hrest.
    injection Hb as <- ->. destruct (IH rest eq_refl) as [-> Hall].
    split; [reflexivity | constructor; assumption].
Qed.

Lemma best_loop_first (t : csv.csvTable) (cs cs' : list Constraint) (col : Z) :
  csv.best_loop t cs = (cs', Some col) ->
  exists (i : nat) (c : Constraint),
    cs !! i = Some c /\ csv.exploitable t c = true /\ col = Column c /\
    (forall j c', (j < i)%nat -> cs !! j = Some c' ->
                  csv.exploitable t c' = false) /\
    cs' = <[i := set_Omit true (set_ArgIndex 0 c)]> cs.
Proof.
  revert cs'. induction cs as [|c cs IH]; intros cs' Hb; [discriminate|].
  cbn [csv.best_loop] in Hb. destruct (csv.exploitable t c) eqn:He.
  - injection Hb as <- <-. exists 0%nat, c.
    repeat split; try assumption; try reflexivity. intros j c' Hj. lia.
  - destruct (csv.best_loop t cs) as [rest found] eqn:Hrest.
    injection Hb as <- ->.
    destruct (IH rest eq_refl) as (i & c1 & H1 & H2 & H3 & H4 & H5).
    exists (S i), c1. repeat split; try assumption.
    + intros j c' Hj Hl. destruct j as [|j].
      * injection Hl as <-. exact He.
      * apply (H4 j c'); [lia | exact Hl].
    + rewrite H5. reflexivity.
Qed.

Lemma csv_advance_pos (rs : list (list string)) (n : nat) :
  csv.crows (csv_advance n (csv.mkCursor rs 0)) = rs /\
  csv.pos (csv_advance n (csv.mkCursor rs 0)) = Z.min (Z.of_nat n) (len rs).
Proof.
  pose proof (len_nonneg rs) as H0.
  induction n as [|n [IHr IHp]].
  - cbn [csv_advance csv.crows csv.pos]. split; [reflexivity | lia].
  - cbn [csv_advance]. unfold csv.Next.
    destruct (Z.ltb_spec (csv.pos (csv_advance n (csv.mkCursor rs 0)))
                (len (csv.crows (csv_advance n (csv.mkCursor rs 0)))))
      as [Hlt|Hge]; cbn [fst csv.crows csv.pos];
      rewrite IHr in *; (split; [try reflexivity; exact IHr | lia]).
Qed.

End CsvPlan.

(** csvTable.BestIndex never fails and keeps the number of constraints.
    When no constraint is a usable EQ on a declared column, it writes plan
    0 and changes nothing else.  Otherwise it takes the first such
    constraint, and only that one: it gets ArgIndex 0 and Omit, the plan is
    1 with the column's index in decimal as plan string, and every other
    constraint is left as it was. *)
Theorem csv_BestIndex_first_usable_eq `{GoLib} (t : csv.csvTable)
    (info : IndexInfo) :
  exists info',
    csv.BestIndex t info = Ok info' /\
    length (Constraints info') = length (Constraints info) /\
    ((Forall (fun c => csv.exploitable t c = false) (Constraints info) /\
      info' = set_IdxNum 0 info) \/
     (exists (i : nat) (c : Constraint),
        Constraints info !! i = Some c /\ csv.exploitable t c = true /\
        (forall j c', (j < i)%nat -> Constraints info !! j = Some c' ->
                      csv.exploitable t c' = false) /\
        info' = set_IdxStr (Itoa (Column c)) (set_IdxNum 1
                  (set_Constraints
                     (<[i := set_Omit true (set_ArgIndex 0 c)]> (Constraints info))
                     info)))).
Proof.
  unfold csv.BestIndex.
  destruct (csv.best_loop t (Constraints info)) as [cs [col|]] eqn:Hloop.
  - destruct (best_loop_first t _ _ _ Hloop) as (i & c & Hi & He & -> & Hf & ->).
    eexists. split; [reflexivity|]. split; [cbn; apply length_insert|].
    right. exists i, c. repeat split; assumption.
  - destruct (best_loop_none t _ _ Hloop) as [-> Hall].
    eexists. split; [reflexivity|]. split; [reflexivity|].
    left. split; [exact Hall | reflexivity].
Qed.



(** A scan of the CSV cursor: after n calls of Next from position 0 the
    cursor is at position min(n, len(rows)) of an unchanged window; it is
    at Eof exactly from n = len(rows) on; Rowid is the position in the
    window plus one (so after a filter it counts the rows of the window,
    not those of the table); and on a row, Column of a declared column the
    row has a field for is that field. *)
Theorem csv_scan_in_order `{GoLib} (t : csv.csvTable)
    (rs : list (list string)) (n : nat) :
  len rs < MaxInt64 ->
  let c := csv_advance n (csv.mkCursor rs 0) in
  csv.crows c = rs /\ csv.pos c = Z.min (Z.of_nat n) (len rs) /\
  (csv.Eof c = true <-> (length rs <= n)%nat) /\
  csv.Rowid c = Ok (Z.min (Z.of_nat n) (len rs) + 1) /\
  (forall r s col, rs !! n = Some r -> 0 <= col < len (csv.cols t) ->
     r !! Z.to_nat col = Some s -> csv.Column t c col = Ok (VText s)).
Proof.
  intros Hlen c. destruct (csv_advance_pos rs n) as [Hr Hp]. fold c in Hr, Hp.
  pose proof (len_nonneg rs) as H0.
  split; [exact Hr|]. split; [exact Hp|]. split; [|split].
  - unfold csv.Eof. rewrite Hr, Hp, Z.leb_le. unfold len. lia.
  - unfold csv.Rowid. rewrite Hp, wrap64_id; [reflexivity|].
    unfold MinInt64, MaxInt64 in *. lia.
  - intros r s col Hrow Hcol Hs.
    pose proof (lookup_lt_Some _ _ _ Hrow) as Hn.
    assert (csv.pos c = Z.of_nat n) as Hpn by (rewrite Hp; unfold len; lia).
    unfold csv.Column. rewrite Hr, Hpn.
    destruct (Z.leb_spec (len rs) (Z.of_nat n)); [unfold len in *; lia|].
    destruct (Z.leb_spec (len (csv.cols t)) col); [lia|]. cbn [orb].
    assert (index rs (Z.of_nat n) = Ok r) as ->.
    { apply index_Ok. rewrite Nat2Z.id. split; [lia | exact Hrow]. }
    cbn. assert (index r col = Ok s) as ->
      by (apply index_Ok; split; [lia | exact Hs]).
    reflexivity.
Qed.

Lemma csv_scan_in_order_witness :
  csv.Rowid (csv_advance 0 (csv.mkCursor [["Bob"]] 0)) = Ok 1.
Proof.
  exact (proj1 (proj2 (proj2 (proj2 (@csv_scan_in_order ascii_lib.lib
    (csv.mkTable "people.csv" ["name"] [["Alice"]; ["Bob"]] 3 true 44 34)
    [["Bob"]] 0%nat eq_refl))))).
Defined.

(** csvCursor.Column checks the index against the declared columns from
    above only: on a row, a negative index panics (index out of range)
    instead of returning NULL or an error. *)
Theorem csv_Column_negative_index_panics `{GoLib} (t : csv.csvTable)
    (c : csv.csvCursor) (col : Z) :
  col < 0 -> 0 <= csv.pos c -> csv.Eof c = false ->
  csv.Column t c col = Panic.
Proof.
  intros Hcol Hpos Heof. unfold csv.Eof in Heof. unfold csv.Column.
  rewrite Heof. pose proof (len_nonneg (csv.cols t)) as Hc.
  destruct (Z.leb_spec (len (csv.cols t)) col); [lia|]. cbn [orb].
  apply Z.leb_gt in Heof.
  destruct (csv.crows c !! Z.to_nat (csv.pos c)) as [r|] eqn:Hr.
  2:{ apply lookup_ge_None in Hr. unfold len in *. lia. }
  assert (index (csv.crows c) (csv.pos c) = Ok r) as ->
    by (apply index_Ok; split; assumption).
  cbn. unfold index. destruct (Z.ltb_spec col 0); [reflexivity | lia].
Qed.

Lemma csv_Column_negative_index_panics_witness :
  csv.Column (csv.mkTable "people.csv" ["name"] [["Alice"]] 2 true 44 34)
    (csv.mkCursor [["Alice"]] 0) (-1) = Panic.
Proof.
  exact (@csv_Column_negative_index_panics ascii_lib.lib
    (csv.mkTable "people.csv" ["name"] [["Alice"]] 2 true 44 34)
    (csv.mkCursor [["Alice"]] 0) (-1) eq_refl ltac:(cbn; lia) eq_refl).
Defined.

(** ** The CSV table: the custom quote *)

Section QuoteFacts.

(** Replacing one byte by one byte goes through the text byte by byte. *)
Lemma ReplaceAll_byte (a b c : ascii) (s : string) :
  ReplaceAll (String c s) (String a "") (String b "")
  = String (if Ascii.eqb c a then b else c)
      (ReplaceAll s (String a "") (String b "")).
Proof.
  unfold ReplaceAll. cbn [replace_from String.prefix].
  destruct (ascii_dec a c) as [->|Hne].
  - rewrite Ascii.eqb_refl. destruct s; reflexivity.
  - assert (Ascii.eqb c a = false) as -> by (apply Ascii.eqb_neq; congruence).
    reflexivity.
Qed.

Lemma byte_round_trip (a b : ascii) (s : string) :
  a <> b ->
  ReplaceAll (ReplaceAll s (String a "") (String b "")) (String b "") (String a "")
  = s <-> Forall (fun c => c <> b) (list_ascii_of_string s).
Proof.
  intros Hab. induction s as [|c s IH].
  - cbn. split; [constructor | reflexivity].
  - rewrite ReplaceAll_byte, ReplaceAll_byte. cbn [list_ascii_of_string].
    rewrite Forall_cons. rewrite <- IH. clear IH.
    destruct (Ascii.eqb_spec c a) as [->|Hca].
    + rewrite Ascii.eqb_refl. split.
      * intros [= Hs]. split; [exact Hab | exact Hs].
      * intros [_ Hs]. rewrite Hs. reflexivity.
    + destruct (Ascii.eqb_spec c b) as [->|Hcb].
      * split; [intros [= Hba]; congruence | intros [Hbb _]; congruence].
      * split.
        -- intros [= Hs]. split; [exact Hcb | exact Hs].
        -- intros [_ Hs]. rewrite Hs. reflexivity.
Qed.

End QuoteFacts.

(** The quote substitution of flush (every double quote becomes the
    table's quote character) is undone by the substitution of loadCSV
    (every quote character becomes a double quote) exactly when the bytes
    flush starts from contain no quote character of their own; this for a
    quote character within ASCII. *)
Theorem quote_substitution_round_trip (q : Z) (out : string) :
  0 < q < 128 -> q <> 34 ->
  (ReplaceAll (ReplaceAll out (byte_str 34) (utf8 q)) (utf8 q) (byte_str 34)
   = out
   <-> Forall (fun c => c <> ascii_of_nat (Z.to_nat q))
         (list_ascii_of_string out)).
Proof.
  intros Hq Hne.
  assert (utf8 q = byte_str q) as ->.
  { unfold utf8. destruct (Z.leb_spec 0 q); [|lia].
    destruct (Z.ltb_spec q 128); [reflexivity | lia]. }
  unfold byte_str. apply byte_round_trip.
  intros Heq. apply (f_equal nat_of_ascii) in Heq.
  rewrite !nat_ascii_embedding in Heq by lia. lia.
Qed.

Lemma quote_substitution_round_trip_witness :
  ReplaceAll (ReplaceAll "name,'x'" (byte_str 34) (utf8 39)) (utf8 39)
    (byte_str 34) <> "name,'x'".
Proof.
  intros Heq.
  pose proof (proj1 (quote_substitution_round_trip 39 "name,'x'"
                       ltac:(lia) ltac:(lia)) Heq) as Hall.
  vm_compute in Hall.
  repeat (apply Forall_cons in Hall as [Hc Hall];
          try (apply Hc; reflexivity); clear Hc).
Defined.

(** ** The CSV table: statements *)

Section CsvStatements.
Context `{GoLib}.

Lemma run_fields (ss : list csv.stmt) :
  forall (t : csv.csvTable) (fs : csv.FS),
  let t' := (run_calls csv.exec ss (t, fs)).1 in
  csv.file t' = csv.file t /\ csv.cols t' = csv.cols t /\
  csv.header t' = csv.header t /\ csv.delimiter t' = csv.delimiter t /\
  csv.quote t' = csv.quote t /\
  (Forall (fun r => length r = length (csv.cols t)) (csv.rows t) ->
   Forall (fun r => length r = length (csv.cols t)) (csv.rows t')).
Proof.
  induction ss as [|s ss IH]; intros t fs; cbv zeta.
  - cbn. repeat split; auto.
  - rewrite run_cons.
    pose proof (exec_fields s t fs) as (Ef & Ec & Eh & Ed & Eq).
    pose proof (exec_rows s t fs) as Hrows. cbv zeta in *.
    destruct (csv.exec s (t, fs)) as [t1 fs1] eqn:He. cbn [fst] in *.
    destruct (IH t1 fs1) as (If & Ic & Ih & Id & Iq & Iw). cbv zeta in *.
    rewrite If, Ic, Ih, Id, Iq, Ef, Ec, Eh, Ed, Eq.
    repeat split. intros Hw. rewrite Ec in Iw. apply Iw.
    destruct s as [vals rowid|old vals new|old].
    + destruct Hrows as [-> _]. apply Forall_app. split; [exact Hw|].
      constructor; [apply rec_width | constructor].
    + apply Hrows, Hw.
    + destruct Hrows as [_ Hrows].
      destruct (csv.in_range t (wrap64 (old - 1))); rewrite Hrows; [|exact Hw].
      apply Forall_app. split; [apply Forall_take | apply Forall_drop]; exact Hw.
Qed.

End CsvStatements.

(** Whatever Insert, Update and Delete calls a created CSV table goes
    through, and whether or not their flushes succeed, its file name,
    columns and configuration stay those of Create, and every row keeps
    exactly one field per column. *)
Theorem csv_statements_keep_shape `{GoLib} (ctx : csv.Context)
    (fs0 : csv.FS) (args : list string) (t0 : csv.csvTable)
    (ss : list csv.stmt) :
  csv.Create ctx fs0 args = Ok t0 ->
  let t := (run_calls csv.exec ss (t0, fs0)).1 in
  csv.file t = csv.file t0 /\ csv.cols t = csv.cols t0 /\
  csv.header t = csv.header t0 /\ csv.delimiter t = csv.delimiter t0 /\
  csv.quote t = csv.quote t0 /\
  Forall (fun r => length r = length (csv.cols t)) (csv.rows t).
Proof.
  intros Hc t. destruct (Create_inv ctx fs0 args t0 Hc) as [[Hw _ _ _ _ _ _ _ _] _].
  destruct (run_fields ss t0 fs0) as (Hf & Hcols & Hh & Hd & Hq & Hrows).
  fold t in Hf, Hcols, Hh, Hd, Hq, Hrows.
  repeat split; try assumption. rewrite Hcols. apply Hrows, Hw.
Qed.

Lemma csv_statements_keep_shape_witness :
  let nl := byte_str 10 in
  let fs0 : csv.FS :=
    {[ "people.csv" := "name,email" +:+ nl +:+ "Alice,a@x.org" +:+ nl ]} in
  let t0 := csv.mkTable "people.csv" ["name"; "email"] [["Alice"; "a@x.org"]]
              2 true 44 34 in
  let t := (run_calls csv.exec
              [csv.SInsert [VText "Bob"] 0; csv.SUpdate 1 [] None] (t0, fs0)).1 in
  Forall (fun r => length r = length (csv.cols t)) (csv.rows t).
Proof.
  exact (proj2 (proj2 (proj2 (proj2 (proj2
    (@csv_statements_keep_shape ascii_lib.lib
       (csv.Build_Context (fun _ => Ok ()))
       {[ "people.csv" := "name,email" +:+ byte_str 10 +:+ "Alice,a@x.org"
                          +:+ byte_str 10 ]}
       ["csv"; "main"; "people"; "filename=people.csv"]
       (csv.mkTable "people.csv" ["name"; "email"] [["Alice"; "a@x.org"]]
          2 true 44 34)
       [csv.SInsert [VText "Bob"] 0; csv.SUpdate 1 [] None] eq_refl)))))).
Defined.

(** The rowid a sentinel Insert reports on a CSV table that was created
    and then taken through a sequence of statements is len(rows) + 1 plus
    the number of rows removed by Delete so far, while the inserted row
    stands at position len(rows), where a cursor's Rowid is len(rows) + 1:
    the two agree exactly as long as no row has been deleted. *)
Theorem csv_reported_rowid `{GoLib} (ctx : csv.Context) (fs0 : csv.FS)
    (args : list string) (t0 : csv.csvTable) (ss : list csv.stmt)
    (vals : list value) :
  csv.Create ctx fs0 args = Ok t0 ->
  len (csv.rows t0) + len ss < MaxInt64 ->
  let st := run_calls csv.exec ss (t0, fs0) in
  let i := csv.Insert st.1 st.2 vals 0 in
  i.1.2 = len (csv.rows st.1) + 1 + csv.removed ss (t0, fs0) /\
  0 <= csv.removed ss (t0, fs0) /\
  csv.rows i.1.1.1 !! Z.to_nat (len (csv.rows st.1))
    = Some (csv.valuesToStrings vals (len (csv.cols st.1))).
Proof.
  intros Hc Hb st i.
  destruct (Create_inv ctx fs0 args t0 Hc) as [_ Hn0].
  pose proof (len_nonneg (csv.rows t0)) as Hr0. pose proof (len_nonneg ss) as Hs.
  rewrite wrap64_id in Hn0 by (unfold MinInt64, MaxInt64 in *; lia).
  destruct (run_counter ss t0 fs0 0) as (Hn & Hrem & _); [lia | lia | lia |].
  fold st in Hn.
  destruct (csv_Insert_memory_and_file st.1 st.2 vals 0) as (Hrows & _ & Hid & _).
  fold i in Hrows, Hid. cbn [Z.eqb] in Hid.
  split; [rewrite Hid; lia|]. split; [exact Hrem|].
  rewrite Hrows. unfold len at 1. rewrite Nat2Z.id.
  apply list_lookup_middle. reflexivity.
Qed.

Lemma csv_reported_rowid_witness :
  let nl := byte_str 10 in
  let fs0 : csv.FS :=
    {[ "people.csv" := "name" +:+ nl +:+ "Alice" +:+ nl +:+ "Bob" +:+ nl ]} in
  let t0 := csv.mkTable "people.csv" ["name"] [["Alice"]; ["Bob"]] 3 true 44 34 in
  let st := run_calls csv.exec [csv.SDelete 1] (t0, fs0) in
  (csv.Insert st.1 st.2 [VText "Carol"] 0).1.2 = 3.
Proof.
  exact (proj1 (@csv_reported_rowid ascii_lib.lib
    (csv.Build_Context (fun _ => Ok ()))
    {[ "people.csv" := "name" +:+ byte_str 10 +:+ "Alice" +:+ byte_str 10
                       +:+ "Bob" +:+ byte_str 10 ]}
    ["csv"; "main"; "people"; "filename=people.csv"]
    (csv.mkTable "people.csv" ["name"] [["Alice"]; ["Bob"]] 3 true 44 34)
    [csv.SDelete 1] [VText "Carol"] eq_refl eq_refl)).
Defined.

(** ** The echo table *)

Section EchoFacts.
Context `{GoLib}.

Lemma echo_best_loop_spec (cs : list Constraint) :
  match echo.best_loop cs with
  | (cs', None) =>
      cs' = cs /\ Forall (fun c => ~ echo_takes c) cs
  | (cs', Some n) =>
      exists (i : nat) (c : Constraint),
        cs !! i = Some c /\ Usable c = true /\ Column c = 0 /\
        (forall j c', (j < i)%nat -> cs !! j = Some c' -> ~ echo_takes c') /\
        ((n = 1 /\ Op c = OpEQ /\
          cs' = <[i := set_Omit true (set_ArgIndex 0 c)]> cs) \/
         (n = 2 /\ Op c = OpLIKE /\ cs' = <[i := set_ArgIndex 0 c]> cs))
  end.
Proof.
  induction cs as [|c cs IH]; [split; [reflexivity | constructor]|].
  cbn [echo.best_loop].
  assert (~ echo_takes c ->
          match (let '(rest', r) := echo.best_loop cs in (c :: rest', r)) with
          | (cs', None) =>
              cs' = c :: cs /\ Forall (fun c => ~ echo_takes c) (c :: cs)
          | (cs', Some n) =>
              exists (i : nat) (c1 : Constraint),
                (c :: cs) !! i = Some c1 /\ Usable c1 = true /\ Column c1 = 0 /\
                (forall j c', (j < i)%nat -> (c :: cs) !! j = Some c' ->
                              ~ echo_takes c') /\
                ((n = 1 /\ Op c1 = OpEQ /\
                  cs' = <[i := set_Omit true (set_ArgIndex 0 c1)]> (c :: cs)) \/
                 (n = 2 /\ Op c1 = OpLIKE /\
                  cs' = <[i := set_ArgIndex 0 c1]> (c :: cs)))
          end) as Hskip.
  { intros Hc. destruct (echo.best_loop cs) as [rest [n|]].
    - destruct IH as (i & c1 & H1 & H2 & H3 & H4 & H5).
      exists (S i), c1. repeat split; try assumption.
      + intros j c' Hj Hl. destruct j as [|j].
        * injection Hl as <-. exact Hc.
        * apply (H4 j c'); [lia | exact Hl].
      + destruct H5 as [(-> & Ho & ->) | (-> & Ho & ->)];
          [left | right]; repeat split; assumption.
    - destruct IH as [-> Hall]. split; [reflexivity|].
      constructor; assumption. }
  destruct (Usable c) eqn:Hu; cbn [negb orb].
  2:{ apply Hskip. intros (Hu' & _). congruence. }
  destruct (Z.eqb_spec (Column c) 0) as [Hcol|Hcol]; cbn [negb].
  2:{ apply Hskip. intros (_ & Hc' & _). congruence. }
  destruct (Op c) eqn:Ho;
    try (apply Hskip; intros (_ & _ & [Ho'|Ho']); congruence).
  - exists 0%nat, c. repeat split; try assumption; [intros j c' Hj; lia|].
    left. repeat split; assumption.
  - exists 0%nat, c. repeat split; try assumption; [intros j c' Hj; lia|].
    right. repeat split; assumption.
Qed.

Lemma echo_advance_rows (n : nat) (c : echo.echoCursor) :
  echo.rows (echo_advance n c) = echo.rows c /\
  (0 <= echo.pos c -> 0 <= echo.pos (echo_advance n c)).
Proof.
  induction n as [|n [IHr IHp]]; [split; [reflexivity | auto]|].
  cbn [echo_advance]. unfold echo.Next.
  destruct (Z.ltb_spec (echo.pos (echo_advance n c))
              (len (echo.rows (echo_advance n c))));
    cbn [fst echo.rows echo.pos]; (split; [exact IHr|]); intros Hp;
    specialize (IHp Hp); lia.
Qed.

End EchoFacts.

(** echoTable.BestIndex never fails and keeps the number of constraints.
    It takes the first usable constraint on column 0 whose operator is EQ
    or LIKE, and only that one: for EQ it writes ArgIndex 0 and Omit and
    plan 1, for LIKE ArgIndex 0 (Omit left alone) and plan 2.  When there is
    none it writes plan 0 and changes nothing else. *)
Theorem echo_BestIndex_plans `{GoLib} (info : IndexInfo) :
  exists info',
    echo.BestIndex info = Ok info' /\
    length (Constraints info') = length (Constraints info) /\
    ((Forall (fun c => ~ echo_takes c) (Constraints info) /\
      info' = set_IdxNum 0 info) \/
     (exists (i : nat) (c : Constraint),
        Constraints info !! i = Some c /\ echo_takes c /\
        (forall j c', (j < i)%nat -> Constraints info !! j = Some c' ->
                      ~ echo_takes c') /\
        ((Op c = OpEQ /\
          info' = set_IdxNum 1 (set_Constraints
                    (<[i := set_Omit true (set_ArgIndex 0 c)]> (Constraints info))
                    info)) \/
         (Op c = OpLIKE /\
          info' = set_IdxNum 2 (set_Constraints
                    (<[i := set_ArgIndex 0 c]> (Constraints info)) info))))).
Proof.
  unfold echo.BestIndex. pose proof (echo_best_loop_spec (Constraints info)) as Hs.
  destruct (echo.best_loop (Constraints info)) as [cs [n|]].
  - destruct Hs as (i & c & Hi & Hu & Hc & Hf & Hn).
    eexists. split; [reflexivity|].
    destruct Hn as [(-> & Ho & ->) | (-> & Ho & ->)].
    + split; [cbn; apply length_insert|]. right. exists i, c.
      repeat split; try assumption; [left; exact Ho|].
      left. split; [exact Ho | reflexivity].
    + split; [cbn; apply length_insert|]. right. exists i, c.
      repeat split; try assumption; [right; exact Ho|].
      right. split; [exact Ho | reflexivity].
  - destruct Hs as [-> Hall]. eexists. split; [reflexivity|].
    split; [reflexivity|]. left. split; [exact Hall | reflexivity].
Qed.



(** The echo table keeps the promise of Omit: after Filter under plan 1
    with exactly one argument, on every row the cursor comes to stand on
    (any number of Next calls, not at Eof), Column(0) is the argument taken
    as a string. *)
Theorem echo_omit_promise `{GoLib} (c0 : echo.echoCursor) (idxStr : string)
    (v : value) (n : nat) :
  let c := echo_advance n (echo.Filter c0 1 idxStr [v]).1 in
  echo.Eof c = false -> echo.Column c 0 = Ok (VText (as_string v)).
Proof.
  intros c Heof.
  destruct (echo_advance_rows n (echo.Filter c0 1 idxStr [v]).1) as [Hr Hp].
  fold c in Hr, Hp. specialize (Hp ltac:(cbn; lia)).
  unfold echo.Eof in Heof. apply Z.leb_gt in Heof.
  unfold echo.Column.
  destruct (Z.ltb_spec (echo.pos c) (len (echo.rows c))); [|lia]. cbn.
  destruct (echo.rows c !! Z.to_nat (echo.pos c)) as [s|] eqn:Hs.
  2:{ apply lookup_ge_None in Hs. unfold len in *. lia. }
  assert (index (echo.rows c) (echo.pos c) = Ok s) as ->
    by (apply index_Ok; split; assumption).
  cbn. rewrite Hr in Hs. cbn [echo.Filter Z.eqb Pos.eqb fst echo.rows] in Hs.
  apply filter_lookup, String.eqb_eq in Hs. rewrite Hs. reflexivity.
Qed.

Lemma echo_omit_promise_witness :
  echo.Column
    (echo_advance 0 (echo.Filter (echo.mkCursor echo.all 0) 1 "" [VText "beta"]).1)
    0 = Ok (VText "beta").
Proof.
  exact (@echo_omit_promise ascii_lib.lib (echo.mkCursor echo.all 0) ""
           (VText "beta") 0%nat eq_refl).
Defined.

(** ** The match and regexp tables *)

(** matchCursor.Filter under plan 20 with exactly one argument keeps
    exactly the rows of the data set whose lower-cased text contains the
    lower-cased argument; with any other plan or number of arguments the
    window is the whole data set. *)
Theorem match_Filter_window `{GoLib} (c : match_.matchCursor)
    (idxStr : string) (v : value) :
  (forall s, s ∈ match_.rows (match_.Filter c 20 idxStr [v]).1 <->
             s ∈ match_.all /\
             Contains (ToLower s) (ToLower (as_string v)) = true) /\
  (forall n vals, n <> 20 \/ length vals <> 1%nat ->
     match_.rows (match_.Filter c n idxStr vals).1 = match_.all).
Proof.
  split.
  - intros s. cbn [match_.Filter Z.eqb Pos.eqb fst match_.rows].
    rewrite !list_elem_of_In, filter_In. reflexivity.
  - intros n vals Hcase. unfold match_.Filter. cbn [fst match_.rows].
    destruct vals as [|v1 [|v2 vals]]; try reflexivity.
    destruct Hcase as [Hn | Hlen]; [|cbn in Hlen; lia].
    apply Z.eqb_neq in Hn. rewrite Hn. reflexivity.
Qed.



Lemma match_Filter_window_witness :
  match_.rows (match_.Filter (match_.mkCursor match_.all 0) 7 "" [VText "al"]).1
  = match_.all.
Proof.
  apply (proj2 (@match_Filter_window ascii_lib.lib
    (match_.mkCursor match_.all 0) "" (VText "al")) 7 [VText "al"]).
  left. discriminate.
Defined.

(** ** The ArgIndex table *)





(** ** Statement arguments *)

Lemma toNamedValues_from_lookup {A} (vals : list A) :
  forall (k : Z) (i : nat),
  driver.toNamedValues_from k vals !! i
  = (fun v => driver.mkNamed "" (k + Z.of_nat i + 1) v) <$> vals !! i.
Proof.
  induction vals as [|v vals IH]; intros k i; [reflexivity|].
  destruct i as [|i].
  - cbn. f_equal. f_equal. lia.
  - cbn [driver.toNamedValues_from].
    etransitivity; [apply (IH (k + 1) i)|].
    change ((v :: vals) !! S i) with (vals !! i).
    destruct (vals !! i); [|reflexivity]. cbn. f_equal. f_equal. lia.
Qed.

(** toNamedValues keeps the number and the order of the values, names
    none of them, and numbers them from 1: the value at index i gets
    ordinal i + 1. *)
Theorem toNamedValues_ordinals {A} (vals : list A) :
  length (driver.toNamedValues vals) = length vals /\
  forall i : nat,
    driver.toNamedValues vals !! i
    = (fun v => driver.mkNamed "" (Z.of_nat i + 1) v) <$> vals !! i.
Proof.
  split.
  - unfold driver.toNamedValues. generalize 0 as k.
    induction vals as [|v vals IH]; intros k; [reflexivity|].
    cbn. f_equal. apply IH.
  - intros i. unfold driver.toNamedValues.
    rewrite toNamedValues_from_lookup. reflexivity.
Qed.

(** ** The updater table: Delete and the rowids *)

Section UpdaterMore.
Context `{GoLib}.

Lemma delete_loop_absent (rs : list updater.updRow) (old : Z) :
  Forall (fun r => updater.id r <> old) rs ->
  updater.delete_loop rs old = Err ("row " +:+ Itoa old +:+ " not found").
Proof.
  induction 1 as [|r rs Hr _ IH]; [reflexivity|].
  cbn [updater.delete_loop]. apply Z.eqb_neq in Hr. rewrite Hr, IH. reflexivity.
Qed.

Lemma delete_loop_found (rs : list updater.updRow) (old : Z) :
  forall (i : nat) (r : updater.updRow),
  rs !! i = Some r -> updater.id r = old ->
  (forall j r', (j < i)%nat -> rs !! j = Some r' -> updater.id r' <> old) ->
  updater.delete_loop rs old = Ok (delete i rs).
Proof.
  induction rs as [|r0 rs IH]; intros i r Hi Hid Hfirst; [discriminate|].
  destruct i as [|i].
  - injection Hi as ->. cbn [updater.delete_loop].
    apply Z.eqb_eq in Hid. rewrite Hid. reflexivity.
  - cbn [updater.delete_loop].
    assert (updater.id r0 <> old) as Hr0
      by (apply (Hfirst 0%nat r0); [lia | reflexivity]).
    apply Z.eqb_neq in Hr0. rewrite Hr0.
    rewrite (IH i r Hi Hid); [reflexivity|].
    intros j r' Hj Hl. apply (Hfirst (S j) r'); [lia | exact Hl].
Qed.

(** What a successful loop of Delete keeps. *)
Lemma delete_loop_keeps (P : updater.updRow -> Prop) (rs rs' : list updater.updRow)
    (old : Z) :
  updater.delete_loop rs old = Ok rs' ->
  (Forall P rs -> Forall P rs') /\
  (NoDup (map updater.id rs) -> NoDup (map updater.id rs')) /\
  (forall x, x ∈ map updater.id rs' -> x ∈ map updater.id rs).
Proof.
  revert rs'. induction rs as [|r rs IH]; intros rs' Hd; [discriminate|].
  cbn [updater.delete_loop] in Hd. destruct (updater.id r =? old).
  - injection Hd as <-. repeat split.
    + intros HP. apply Forall_cons in HP as [_ HP]. exact HP.
    + cbn [map]. intros Hn. apply NoDup_cons in Hn as [_ Hn]. exact Hn.
    + intros x Hx. cbn [map]. apply list_elem_of_further, Hx.
  - destruct (updater.delete_loop rs old) as [rest| |]; cbn in Hd;
      [|discriminate..].
    injection Hd as <-. destruct (IH rest eq_refl) as (IP & IN & II).
    repeat split.
    + intros HP. apply Forall_cons in HP as [Hr HP]. constructor; auto.
    + cbn [map]. intros Hn. apply NoDup_cons in Hn as [Hr Hn].
      apply NoDup_cons. split; [|auto]. intros Hin. apply Hr, II, Hin.
    + intros x Hx. cbn [map] in *. apply elem_of_cons in Hx as [->|Hx];
        [apply list_elem_of_here | apply list_elem_of_further, II, Hx].
Qed.

Lemma update_loop_keeps_ids (rs rs' : list updater.updRow) (old : Z)
    (cols : list value) (new : option Z) :
  match new with
  | None => True
  | Some n => n = 0 \/ n = old
  end ->
  updater.update_loop rs old cols new = Ok rs' ->
  map updater.id rs' = map updater.id rs.
Proof.
  intros Hnew. revert rs'.
  induction rs as [|r rs IH]; intros rs' Hu; [discriminate|].
  cbn [updater.update_loop] in Hu.
  destruct (Z.eqb_spec (updater.id r) old) as [Hid|Hid].
  - destruct (index cols 0) as [c0| |]; cbn in Hu; [|discriminate..].
    injection Hu as <-. cbn [map updater.id]. f_equal.
    destruct new as [n|]; [|reflexivity].
    destruct Hnew as [-> | ->].
    + reflexivity.
    + rewrite Z.eqb_refl, andb_false_r. reflexivity.
  - destruct (updater.update_loop rs old cols new) as [rest| |]; cbn in Hu;
      [|discriminate..].
    injection Hu as <-. cbn [map]. f_equal. apply IH. reflexivity.
Qed.

(** The invariant of a table that never was given a rowid by a caller. *)
Lemma exec_keeps_rowids (s : updater.stmt) (t t' : updater.updaterTableX)
    (r : option Z) :
  keeps_rowids s = true ->
  0 < updater.nextID t < MaxInt64 ->
  Forall (fun x => 0 < x < updater.nextID t) (map updater.id (updater.rows t)) ->
  NoDup (map updater.id (updater.rows t)) ->
  updater.exec s t = (t', r) ->
  updater.nextID t <= updater.nextID t' <= updater.nextID t + 1 /\
  Forall (fun x => 0 < x < updater.nextID t')
    (map updater.id (updater.rows t')) /\
  NoDup (map updater.id (updater.rows t')).
Proof.
  intros Hs Hn Hall Hnd He.
  destruct s as [cols rowid|old cols new|old]; cbn [keeps_rowids] in Hs;
    cbn [updater.exec] in He.
  - apply Z.eqb_eq in Hs. subst rowid.
    destruct (Insert_auto t cols) as [Hi|[c0 Hi]]; rewrite Hi in He.
    + injection He as <- <-. repeat split; try assumption; lia.
    + injection He as <- <-. cbn [updater.nextID updater.rows].
      rewrite wrap64_id by (unfold MinInt64, MaxInt64 in *; lia).
      rewrite map_app. cbn [map updater.id].
      split; [lia|]. split.
      * apply Forall_app. split.
        -- eapply Forall_impl; [exact Hall|]. cbn. intros x Hx. lia.
        -- constructor; [lia | constructor].
      * apply NoDup_app. split; [exact Hnd|]. split.
        -- intros x Hx Hx'. apply list_elem_of_singleton in Hx'. subst x.
           rewrite Forall_forall in Hall. specialize (Hall _ Hx). lia.
        -- apply NoDup_singleton.
  - unfold updater.Update in He.
    destruct (updater.update_loop (updater.rows t) old cols new)
      as [rs| |] eqn:Hu; cbn in He; injection He as <- <-;
      try (repeat split; try assumption; lia).
    cbn [updater.nextID updater.rows].
    assert (match new with
            | None => True
            | Some n => n = 0 \/ n = old
            end) as Hnew.
    { destruct new as [n|]; [|exact I].
      apply orb_true_iff in Hs as [Hs|Hs]; apply Z.eqb_eq in Hs; auto. }
    rewrite (update_loop_keeps_ids _ _ _ _ _ Hnew Hu).
    repeat split; try assumption; lia.
  - unfold updater.Delete in He.
    destruct (updater.delete_loop (updater.rows t) old) as [rs| |] eqn:Hd;
      cbn in He; injection He as <- <-;
      try (repeat split; try assumption; lia).
    cbn [updater.nextID updater.rows].
    destruct (delete_loop_keeps (fun _ => True) _ _ _ Hd) as (_ & HN & HI).
    split; [lia|]. split; [|apply HN, Hnd].
    apply Forall_forall. intros x Hx. rewrite Forall_forall in Hall.
    apply Hall, HI, Hx.
Qed.

Lemma run_keeps_rowids (ss : list updater.stmt) :
  forall (t t' : updater.updaterTableX) (ids : list Z),
  forallb keeps_rowids ss = true ->
  0 < updater.nextID t -> updater.nextID t + len ss <= MaxInt64 ->
  Forall (fun x => 0 < x < updater.nextID t) (map updater.id (updater.rows t)) ->
  NoDup (map updater.id (updater.rows t)) ->
  updater.run ss t = (t', ids) ->
  Forall (fun x => 0 < x < updater.nextID t')
    (map updater.id (updater.rows t')) /\
  NoDup (map updater.id (updater.rows t')).
Proof.
  induction ss as [|s ss IH]; intros t t' ids Hall Hpos Hb Hf Hnd Hrun.
  - cbn in Hrun. injection Hrun as <- <-. split; assumption.
  - cbn [forallb] in Hall. apply andb_true_iff in Hall as [Hs Hall].
    rewrite len_cons in Hb. pose proof (len_nonneg ss) as Hlen.
    cbn [updater.run] in Hrun.
    destruct (updater.exec s t) as [t1 r] eqn:He.
    destruct (updater.run ss t1) as [t2 ids'] eqn:Hrest.
    injection Hrun as <- <-.
    destruct (exec_keeps_rowids s t t1 r Hs ltac:(lia) Hf Hnd He)
      as (Hn1 & Hf1 & Hnd1).
    apply (IH t1 t2 ids' Hall); try assumption; lia.
Qed.

Lemma delete_last (rs : list updater.updRow) (r : Z) (v : string) :
  Forall (fun x => updater.id x <> r) rs ->
  updater.delete_loop (rs ++ [updater.mkRow r v]) r = Ok rs.
Proof.
  induction 1 as [|x rs Hx _ IH]; cbn [app updater.delete_loop updater.id].
  - rewrite Z.eqb_refl. reflexivity.
  - apply Z.eqb_neq in Hx. rewrite Hx, IH. reflexivity.
Qed.

End UpdaterMore.

(** updaterTableX.Delete fails with "row ... not found", leaving the table
    as it is, when no row has the rowid; otherwise it removes the first row
    that has it and nothing else, and it never touches the counter. *)
Theorem updater_Delete_first_match `{GoLib} (t : updater.updaterTableX)
    (old : Z) :
  (Forall (fun r => updater.id r <> old) (updater.rows t) ->
   updater.Delete t old = Err ("row " +:+ Itoa old +:+ " not found")) /\
  (forall (i : nat) (r : updater.updRow),
     updater.rows t !! i = Some r -> updater.id r = old ->
     (forall j r', (j < i)%nat -> updater.rows t !! j = Some r' ->
                   updater.id r' <> old) ->
     updater.Delete t old
     = Ok (updater.mkTable (delete i (updater.rows t)) (updater.nextID t))).
Proof.
  split.
  - intros Habs. unfold updater.Delete.
    rewrite delete_loop_absent by exact Habs. reflexivity.
  - intros i r Hi Hid Hfirst. unfold updater.Delete.
    rewrite (delete_loop_found _ _ i r Hi Hid Hfirst). reflexivity.
Qed.

Lemma updater_Delete_first_match_witness :
  updater.Delete
    (updater.mkTable [updater.mkRow 1 "Alice"; updater.mkRow 2 "Bob"] 3) 7
  = Err "row 7 not found".
Proof.
  refine (proj1 (@updater_Delete_first_match ascii_lib.lib
    (updater.mkTable [updater.mkRow 1 "Alice"; updater.mkRow 2 "Bob"] 3) 7) _).
  repeat constructor; discriminate.
Defined.

(** On an updater table that was created and then only given inserts with
    the unset rowid, deletes, and updates that name no new rowid, the
    rowids of the rows are pairwise different, positive and below the
    counter (the sequence being shorter than the positive range of
    int64). *)
Theorem updater_rowids_distinct `{GoLib} (ss : list updater.stmt)
    (t' : updater.updaterTableX) (ids : list Z) :
  forallb keeps_rowids ss = true ->
  len ss < MaxInt64 ->
  updater.run ss updater.Create = (t', ids) ->
  NoDup (map updater.id (updater.rows t')) /\
  Forall (fun x => 0 < x < updater.nextID t')
    (map updater.id (updater.rows t')).
Proof.
  intros Hall Hlen Hrun.
  destruct (run_keeps_rowids ss updater.Create t' ids Hall) as [Hf Hnd];
    [reflexivity | cbn; lia | constructor | constructor | exact Hrun |].
  split; assumption.
Qed.

Lemma updater_rowids_distinct_witness :
  NoDup [1; 3; 4].
Proof.
  exact (proj1 (@updater_rowids_distinct ascii_lib.lib
    [updater.SInsert [VText "A"] 0; updater.SInsert [VText "B"] 0;
     updater.SInsert [VText "C"] 0; updater.SUpdate 3 [VText "c"] None;
     updater.SDelete 2; updater.SInsert [VText "D"] 0]
    (updater.mkTable [updater.mkRow 1 "A"; updater.mkRow 3 "c";
                      updater.mkRow 4 "D"] 5)
    [1; 2; 3; 4] eq_refl eq_refl eq_refl)).
Defined.

(** updaterTableX: an insert with the unset rowid into a table whose
    rowids all differ from the counter reports the counter as the rowid, and
    deleting that rowid right away gives back the rows as they were; the
    counter stays moved on. *)
Theorem updater_Insert_then_Delete `{GoLib} (t : updater.updaterTableX)
    (c0 : value) (cols : list value) :
  Forall (fun r => updater.id r <> updater.nextID t) (updater.rows t) ->
  exists t1,
    updater.Insert t (c0 :: cols) 0 = Ok (t1, updater.nextID t) /\
    updater.Delete t1 (updater.nextID t)
    = Ok (updater.mkTable (updater.rows t) (wrap64 (updater.nextID t + 1))).
Proof.
  intros Hfresh. eexists. split; [reflexivity|].
  unfold updater.Delete. cbn [updater.rows updater.nextID Z.eqb].
  rewrite delete_last by exact Hfresh. reflexivity.
Qed.

Lemma updater_Insert_then_Delete_witness :
  exists t1,
    updater.Insert (updater.mkTable [updater.mkRow 1 "Alice"] 2)
      [VText "Bob"] 0 = Ok (t1, 2) /\
    updater.Delete t1 2 = Ok (updater.mkTable [updater.mkRow 1 "Alice"] 3).
Proof.
  refine (@updater_Insert_then_Delete ascii_lib.lib
    (updater.mkTable [updater.mkRow 1 "Alice"] 2) (VText "Bob") [] _).
  repeat constructor; discriminate.
Defined.

(** ** The updater table's cursor *)

(** updaterCursorX reads the table as it is at each call.  On a row (not at
    Eof) Rowid is the id of the row at the cursor's position and Column(0)
    its value.  At Eof Column returns NULL, but Rowid has no such guard: it
    indexes the rows and panics. *)
Theorem updaterCursor_Rowid_unguarded `{GoLib} (t : updater.updaterTableX)
    (c : updater_cursor.updaterCursorX) (col : Z) :
  0 <= updater_cursor.pos c ->
  (updater_cursor.Eof t c = true ->
   updater_cursor.Rowid t c = Panic /\
   updater_cursor.Column t c col = Ok VNull) /\
  (updater_cursor.Eof t c = false ->
   exists r,
     updater.rows t !! Z.to_nat (updater_cursor.pos c) = Some r /\
     updater_cursor.Rowid t c = Ok (updater.id r) /\
     updater_cursor.Column t c 0 = Ok (VText (updater.val r))).
Proof.
  intros Hpos. unfold updater_cursor.Eof, updater_cursor.Rowid,
    updater_cursor.Column. split.
  - intros Heof. rewrite Heof. split; [|reflexivity].
    unfold index. rewrite Heof, orb_true_r. reflexivity.
  - intros Heof. rewrite Heof. apply Z.leb_gt in Heof.
    destruct (updater.rows t !! Z.to_nat (updater_cursor.pos c)) as [r|] eqn:Hr.
    2:{ apply lookup_ge_None in Hr. unfold len in *. lia. }
    exists r. split; [reflexivity|].
    assert (index (updater.rows t) (updater_cursor.pos c) = Ok r) as ->
      by (apply index_Ok; split; assumption).
    split; reflexivity.
Qed.

Lemma updaterCursor_Rowid_unguarded_witness :
  updater_cursor.Rowid (updater.mkTable [updater.mkRow 1 "Alice"] 2)
    (updater_cursor.mkCursor 1) = Panic.
Proof.
  exact (proj1 (proj1 (@updaterCursor_Rowid_unguarded ascii_lib.lib
    (updater.mkTable [updater.mkRow 1 "Alice"] 2)
    (updater_cursor.mkCursor 1) 0 ltac:(cbn; lia)) eq_refl)).
Defined.

(** ** The match and regexp tables: planning *)

Section MatchRePlan.
Context `{GoLib}.

Lemma match_best_loop_spec (cs : list Constraint) :
  match match_.best_loop cs with
  | (cs', false) =>
      cs' = cs /\
      Forall (fun c => ~ (Usable c = true /\ Column c = 0 /\ Op c = OpMATCH)) cs
  | (cs', true) =>
      exists (i : nat) (c : Constraint),
        cs !! i = Some c /\ Usable c = true /\ Column c = 0 /\ Op c = OpMATCH /\
        (forall j c', (j < i)%nat -> cs !! j = Some c' ->
           ~ (Usable c' = true /\ Column c' = 0 /\ Op c' = OpMATCH)) /\
        cs' = <[i := set_Omit true (set_ArgIndex 0 c)]> cs
  end.
Proof.
  induction cs as [|c cs IH]; [split; [reflexivity | constructor]|].
  cbn [match_.best_loop].
  destruct (negb (Usable c) || negb (Column c =? 0)) eqn:Hskip.
  - assert (~ (Usable c = true /\ Column c = 0 /\ Op c = OpMATCH)) as Hc.
    { intros (Hu & Hcol & _). rewrite Hu, Hcol in Hskip. discriminate. }
    destruct (match_.best_loop cs) as [rest [|]].
    + destruct IH as (i & c1 & H1 & H2 & H3 & H4 & H5 & ->).
      exists (S i), c1. repeat split; try assumption.
      intros j c' Hj Hl. destruct j as [|j];
        [injection Hl as <-; exact Hc | apply (H5 j c'); [lia | exact Hl]].
    + destruct IH as [-> Hall]. split; [reflexivity | constructor; assumption].
  - apply orb_false_iff in Hskip as [Hu Hcol].
    apply negb_false_iff in Hu. apply negb_false_iff, Z.eqb_eq in Hcol.
    unfold op_is. destruct (bool_decide_reflect (Op c = OpMATCH)) as [Ho|Ho].
    + exists 0%nat, c. repeat split; try assumption. intros j c' Hj. lia.
    + assert (~ (Usable c = true /\ Column c = 0 /\ Op c = OpMATCH)) as Hc
        by (intros (_ & _ & Ho'); contradiction).
      destruct (match_.best_loop cs) as [rest [|]].
      * destruct IH as (i & c1 & H1 & H2 & H3 & H4 & H5 & ->).
        exists (S i), c1. repeat split; try assumption.
        intros j c' Hj Hl. destruct j as [|j];
          [injection Hl as <-; exact Hc | apply (H5 j c'); [lia | exact Hl]].
      * destruct IH as [-> Hall]. split; [reflexivity | constructor; assumption].
Qed.

Lemma re_best_loop_spec (t : re.reTable) (cs : list Constraint) :
  match re.best_loop t cs with
  | (cs', false) =>
      cs' = cs /\
      Forall (fun c => ~ (Usable c = true /\ Column c = 0 /\ Op c = OpREGEXP)) cs
  | (cs', true) =>
      exists (i : nat) (c : Constraint),
        cs !! i = Some c /\ Usable c = true /\ Column c = 0 /\ Op c = OpREGEXP /\
        (forall j c', (j < i)%nat -> cs !! j = Some c' ->
           ~ (Usable c' = true /\ Column c' = 0 /\ Op c' = OpREGEXP)) /\
        cs' = <[i := set_Omit (re.omit t) (set_ArgIndex 0 c)]> cs
  end.
Proof.
  induction cs as [|c cs IH]; [split; [reflexivity | constructor]|].
  cbn [re.best_loop].
  destruct (negb (Usable c) || negb (Column c =? 0)) eqn:Hskip.
  - assert (~ (Usable c = true /\ Column c = 0 /\ Op c = OpREGEXP)) as Hc.
    { intros (Hu & Hcol & _). rewrite Hu, Hcol in Hskip. discriminate. }
    destruct (re.best_loop t cs) as [rest [|]].
    + destruct IH as (i & c1 & H1 & H2 & H3 & H4 & H5 & ->).
      exists (S i), c1. repeat split; try assumption.
      intros j c' Hj Hl. destruct j as [|j];
        [injection Hl as <-; exact Hc | apply (H5 j c'); [lia | exact Hl]].
    + destruct IH as [-> Hall]. split; [reflexivity | constructor; assumption].
  - apply orb_false_iff in Hskip as [Hu Hcol].
    apply negb_false_iff in Hu. apply negb_false_iff, Z.eqb_eq in Hcol.
    unfold op_is. destruct (bool_decide_reflect (Op c = OpREGEXP)) as [Ho|Ho].
    + exists 0%nat, c. repeat split; try assumption. intros j c' Hj. lia.
    + assert (~ (Usable c = true /\ Column c = 0 /\ Op c = OpREGEXP)) as Hc
        by (intros (_ & _ & Ho'); contradiction).
      destruct (re.best_loop t cs) as [rest [|]].
      * destruct IH as (i & c1 & H1 & H2 & H3 & H4 & H5 & ->).
        exists (S i), c1. repeat split; try assumption.
        intros j c' Hj Hl. destruct j as [|j];
          [injection Hl as <-; exact Hc | apply (H5 j c'); [lia | exact Hl]].
      * destruct IH as [-> Hall]. split; [reflexivity | constructor; assumption].
Qed.

End MatchRePlan.

(** matchTable.BestIndex never fails.  It takes the first usable MATCH
    constraint on column 0, and only that one, writing ArgIndex 0, Omit and
    plan 20; when there is none it writes plan 0 and changes nothing
    else. *)
Theorem match_BestIndex_plans `{GoLib} (info : IndexInfo) :
  exists info',
    match_.BestIndex info = Ok info' /\
    ((Forall (fun c => ~ (Usable c = true /\ Column c = 0 /\ Op c = OpMATCH))
        (Constraints info) /\
      info' = set_IdxNum 0 info) \/
     (exists (i : nat) (c : Constraint),
        Constraints info !! i = Some c /\
        Usable c = true /\ Column c = 0 /\ Op c = OpMATCH /\
        (forall j c', (j < i)%nat -> Constraints info !! j = Some c' ->
           ~ (Usable c' = true /\ Column c' = 0 /\ Op c' = OpMATCH)) /\
        info' = set_IdxNum 20 (set_Constraints
                  (<[i := set_Omit true (set_ArgIndex 0 c)]> (Constraints info))
                  info))).
Proof.
  unfold match_.BestIndex.
  pose proof (match_best_loop_spec (Constraints info)) as Hs.
  destruct (match_.best_loop (Constraints info)) as [cs [|]].
  - destruct Hs as (i & c & H1 & H2 & H3 & H4 & H5 & ->).
    eexists. split; [reflexivity|]. right. exists i, c.
    repeat split; assumption.
  - destruct Hs as [-> Hall]. eexists. split; [reflexivity|].
    left. split; [exact Hall | reflexivity].
Qed.

(** reTable.BestIndex never fails.  It takes the first usable REGEXP
    constraint on column 0, and only that one, writing ArgIndex 0, the
    table's omit setting as Omit, and plan 10.  When there is none it
    returns the IndexInfo exactly as it got it: unlike the echo and match
    tables it does not write plan 0. *)
Theorem re_BestIndex_plans `{GoLib} (t : re.reTable) (info : IndexInfo) :
  exists info',
    re.BestIndex t info = Ok info' /\
    ((Forall (fun c => ~ (Usable c = true /\ Column c = 0 /\ Op c = OpREGEXP))
        (Constraints info) /\
      info' = info) \/
     (exists (i : nat) (c : Constraint),
        Constraints info !! i = Some c /\
        Usable c = true /\ Column c = 0 /\ Op c = OpREGEXP /\
        (forall j c', (j < i)%nat -> Constraints info !! j = Some c' ->
           ~ (Usable c' = true /\ Column c' = 0 /\ Op c' = OpREGEXP)) /\
        info' = set_IdxNum 10 (set_Constraints
                  (<[i := set_Omit (re.omit t) (set_ArgIndex 0 c)]>
                     (Constraints info)) info))).
Proof.
  unfold re.BestIndex.
  pose proof (re_best_loop_spec t (Constraints info)) as Hs.
  destruct (re.best_loop t (Constraints info)) as [cs [|]].
  - destruct Hs as (i & c & H1 & H2 & H3 & H4 & H5 & ->).
    eexists. split; [reflexivity|]. right. exists i, c.
    repeat split; assumption.
  - destruct Hs as [-> Hall]. eexists. split; [reflexivity|].
    left. split; [exact Hall | reflexivity].
Qed.

(** ** The dummy cursor *)

(** dummyCursor.Column and dummyCursor.Rowid guard every access: in any
    cursor state, also at a negative position, and for any column index,
    they return a value and no error, and never panic; off the rows Column
    is NULL and Rowid is 0. *)
Theorem dummy_cursor_never_panics `{GoLib} (c : dummy.dummyCursor) (col : Z) :
  (exists v, dummy.Column c col = Ok v) /\
  (exists r, dummy.Rowid c = Ok r) /\
  (dummy.pos c < 0 \/ len (dummy.rows c) <= dummy.pos c ->
   dummy.Column c col = Ok VNull /\ dummy.Rowid c = Ok 0).
Proof.
  unfold dummy.Column, dummy.Rowid.
  destruct (Z.ltb_spec (dummy.pos c) 0) as [Hneg|Hpos]; cbn [orb].
  - repeat split; eauto.
  - destruct (Z.leb_spec (len (dummy.rows c)) (dummy.pos c)) as [Hge|Hlt].
    + repeat split; eauto.
    + destruct (dummy.rows c !! Z.to_nat (dummy.pos c)) as [r|] eqn:Hr.
      2:{ apply lookup_ge_None in Hr. unfold len in *. lia. }
      assert (index (dummy.rows c) (dummy.pos c) = Ok r) as ->
        by (apply index_Ok; split; assumption).
      split; [|split].
      * destruct (col =? 0); cbn; eauto.
      * cbn. eauto.
      * intros [H1|H1]; lia.
Qed.

Lemma dummy_cursor_never_panics_witness :
  dummy.Column (dummy.mkCursor [dummy.mkRow 1 "alpha"] (-3)) 0 = Ok VNull /\
  dummy.Rowid (dummy.mkCursor [dummy.mkRow 1 "alpha"] (-3)) = Ok 0.
Proof.
  apply (proj2 (proj2 (@dummy_cursor_never_panics ascii_lib.lib
    (dummy.mkCursor [dummy.mkRow 1 "alpha"] (-3)) 0))).
  left. cbn. lia.
Defined.
